(** * Verification flow of the Queernel 42 bot

    A shallow embedding of the pending-verification state machine of
    [src/bot/src/index.js], of the eligibility predicate
    [FortyTwoAPI.validateStudentStatus] and of the sweep
    [cleanupExpiredVerifications], with the properties the specification
    states about them. *)

From stdpp Require Import gmap strings list fin_maps.
From Stdlib Require Import ZArith Lia.
From Stdlib.Strings Require Import Byte Ascii.
From Stdlib Require DecimalString.

Local Open Scope string_scope.
Local Open Scope list_scope.
Local Open Scope stdpp_scope.
Local Open Scope Z_scope.

(** ** JavaScript values and completions *)

Module Js.

(** An error object: [message] is what the pages interpolate, and
    [response_error_description] is [error.response?.data?.error_description]
    ([None] when any link of the optional chain is undefined, as for every
    error that does not come from the HTTP client). *)
Record JsError := mkError {
  message : string;
  response_error_description : option string
}.

(** [new Error(msg)] *)
Definition Error (msg : string) : JsError := mkError msg None.

(** The engine's [TypeError] for a property read on [null] or [undefined]. *)
Definition TypeError (base key : string) : JsError :=
  mkError ("Cannot read properties of " +:+ base +:+ " (reading '" +:+ key +:+ "')") None.

(** The engine's [TypeError] for a value that has no primitive. *)
Definition ConversionError : JsError :=
  mkError "Cannot convert object to primitive value" None.

Inductive Completion (A : Type) : Type :=
| Normal (a : A)
| Throw (e : JsError).
Arguments Normal {A} a.
Arguments Throw {A} e.

(** Values as [JSON.parse] produces them, plus [undefined]. Numbers are
    integers here: the program only observes whether a number is zero. *)
#[local] Set Warnings "-register-all".
Inductive JsVal : Type :=
| JUndefined
| JNull
| JBool (b : bool)
| JNum (n : Z)
| JStr (s : string)
| JArr (items : list JsVal)
| JObj (props : list (string * JsVal)).

(** ToBoolean, as used by [!x], [if (x)] and [||]. *)
Definition to_boolean (v : JsVal) : bool :=
  match v with
  | JUndefined | JNull => false
  | JBool b => b
  | JNum n => negb (Z.eqb n 0)
  | JStr s => negb (String.eqb s "")
  | JArr _ | JObj _ => true
  end.

Fixpoint own_property (props : list (string * JsVal)) (key : string) : JsVal :=
  match props with
  | [] => JUndefined
  | (k, v) :: rest => if String.eqb k key then v else own_property rest key
  end.

(** [base.key] for the property names this program reads (none of them is an
    index or a prototype member other than [length], and a length is only
    ever compared with 0). *)
Definition get_prop (base : JsVal) (key : string) : Completion JsVal :=
  match base with
  | JUndefined => Throw (TypeError "undefined" key)
  | JNull => Throw (TypeError "null" key)
  | JBool _ | JNum _ => Normal JUndefined
  | JStr s => Normal (if String.eqb key "length" then JNum (Z.of_nat (String.length s)) else JUndefined)
  | JArr items => Normal (if String.eqb key "length" then JNum (Z.of_nat (length items)) else JUndefined)
  | JObj props => Normal (own_property props key)
  end.

(** The value of a property, [undefined] when the read throws. *)
Definition read (base : JsVal) (key : string) : JsVal :=
  match get_prop base key with
  | Normal v => v
  | Throw _ => JUndefined
  end.

(** [v === n] for a number literal [n], and [v === false]. *)
Definition strict_eq_num (v : JsVal) (n : Z) : bool :=
  match v with JNum m => Z.eqb m n | _ => false end.

Definition strict_eq_false (v : JsVal) : bool :=
  match v with JBool false => true | _ => false end.

(** Truthiness of a query-string parameter ([None] is [undefined]). *)
Definition truthy (p : option string) : bool :=
  match p with
  | Some s => negb (String.eqb s "")
  | None => false
  end.

(** Whether the string conversion of [v], as a template literal does it,
    throws. An object is converted by its [toString] and then its [valueOf]:
    a property of its own named [toString] is not a function (nothing in a
    parsed value is), and [valueOf], its own or the inherited one, gives no
    primitive either, so the conversion throws; without such a property the
    inherited [toString] answers. An array joins the conversions of its
    entries. *)
Fixpoint to_string_throws (v : JsVal) : bool :=
  match v with
  | JObj props => existsb (fun p => String.eqb p.1 "toString") props
  | JArr items => existsb to_string_throws items
  | _ => false
  end.

(** [`${v}`]: whether the conversion throws is kept, the text is not. *)
Definition to_string (v : JsVal) : Completion unit :=
  if to_string_throws v then Throw ConversionError else Normal tt.

End Js.
Import Js.

(** ** The pending-verification record

    The object stored in the [pendingVerifications] map: [userData] and
    [step] are absent ([None]) until the identity callback succeeds. *)
Record Verification := mkVerification {
  discordUserId : string;
  discordUsername : string;
  timestamp : Z;
  userData : option JsVal;
  step : option string
}.

Abbreviation Registry := (gmap string Verification).

(** ** Observable effects *)

(** What a handler does to the outside world, in program order. The warning
    of [validateStudentStatus] interpolates the login into its text; the
    event keeps the login as a value, and is only reached when the login
    could be converted to a string. *)
Inductive Effect : Type :=
| ConsoleWarnNoPool (login : JsVal)
| HttpPostToken (code : string)
| HttpGetMe (access_token : JsVal)
| MembersFetch (discordUserId : string)
| RolesAdd (discordUserId : string)
| MemberSend (discordUserId : string)
| SystemChannelSend (discordUserId : string)
| MapSet (state : string) (verification : Verification)
| MapDelete (state : string).

(** ** Plain JavaScript code: a trace of effects and a completion *)

Definition Eval (A : Type) : Type := list Effect * Completion A.

Definition eval_ret {A} (a : A) : Eval A := ([], Normal a).

Definition eval_bind {A B} (m : Eval A) (k : A → Eval B) : Eval B :=
  match m with
  | (tr, Normal a) => let '(tr', c) := k a in (tr ++ tr', c)
  | (tr, Throw e) => (tr, Throw e)
  end.

Definition completed {A} (c : Completion A) : Eval A := ([], c).
Definition emit (e : Effect) : Eval unit := ([e], Normal tt).
Definition eval_throw {A} (e : JsError) : Eval A := ([], Throw e).

(** [try { body } catch (error) { handler }] *)
Definition eval_try {A} (body : Eval A) (handler : JsError → Eval A) : Eval A :=
  match body with
  | (tr, Normal a) => (tr, Normal a)
  | (tr, Throw e) => let '(tr', c) := handler e in (tr ++ tr', c)
  end.

Declare Scope eval_scope.
Delimit Scope eval_scope with eval.
Notation "x <- m ;; k" := (eval_bind m (fun x => k))
  (at level 100, m at next level, right associativity) : eval_scope.
Notation "m ;;; k" := (eval_bind m (fun _ => k))
  (at level 100, right associativity) : eval_scope.

(** ** fortytwo-api.js *)

(** The HTTP client as the two calls of this program see it: the
    [response.data] of the token request for a code and of [/v2/me] for an
    access token, or the rejection. *)
Record Axios := {
  axios_post : string → Completion JsVal;
  axios_get : JsVal → Completion JsVal
}.

Module FortyTwoAPI.

Local Open Scope eval_scope.

(** [error.response?.data?.error_description || error.message] *)
Definition describe (error : JsError) : string :=
  match response_error_description error with
  | Some d => if String.eqb d "" then message error else d
  | None => message error
  end.

(** The arguments of the debug calls are evaluated whether or not debugging
    is on, so [response.data.access_token] is read inside the [try]. *)
Definition exchangeCodeForToken (axios : Axios) (code : string) : Eval JsVal :=
  eval_try
    (emit (HttpPostToken code) ;;;
     data <- completed (axios_post axios code) ;;
     _ <- completed (get_prop data "access_token") ;;
     eval_ret data)
    (fun error =>
       eval_throw (Error ("Failed to exchange code for token: " +:+ describe error))).

(** The [Authorization] header interpolates the token inside the [try],
    before the request is made. *)
Definition getUserInfo (axios : Axios) (accessToken : JsVal) : Eval JsVal :=
  eval_try
    (completed (to_string accessToken) ;;;
     emit (HttpGetMe accessToken) ;;;
     data <- completed (axios_get axios accessToken) ;;
     _ <- completed (get_prop data "login") ;;
     _ <- completed (get_prop data "displayname") ;;
     eval_ret data)
    (fun error =>
       eval_throw (Error ("Failed to get user info: " +:+ describe error))).

(** [a || b] where [b] is only evaluated when [a] is false. *)
Definition or_else (a : Eval bool) (b : Eval bool) : Eval bool :=
  x <- a ;; if x then eval_ret true else b.

Definition falsy_prop (base : JsVal) (key : string) : Eval bool :=
  v <- completed (get_prop base key) ;; eval_ret (negb (to_boolean v)).

(** [!base.key || base.key.length === 0] *)
Definition missing_or_empty (base : JsVal) (key : string) : Eval bool :=
  v <- completed (get_prop base key) ;;
  if negb (to_boolean v) then eval_ret true
  else len <- completed (get_prop v "length") ;; eval_ret (strict_eq_num len 0).

Definition validateStudentStatus (userData : JsVal) : Eval bool :=
  (* Check if user has required fields *)
  c <- or_else (eval_ret (negb (to_boolean userData)))
         (or_else (falsy_prop userData "login") (falsy_prop userData "email")) ;;
  if c then eval_ret false else
  (* Check if user is not staff *)
  staff <- completed (get_prop userData "staff?") ;;
  if to_boolean staff then eval_ret false else
  (* Check if user has active cursus (using cursus_users array) *)
  c <- missing_or_empty userData "cursus_users" ;;
  if c then eval_ret false else
  (* Check if user has at least one active campus *)
  c <- missing_or_empty userData "campus" ;;
  if c then eval_ret false else
  (* Additional validation: check if user is active *)
  active <- completed (get_prop userData "active?") ;;
  if strict_eq_false active then eval_ret false else
  (* Additional validation: pool year, kept as a warning *)
  c <- (py <- completed (get_prop userData "pool_year") ;;
        if to_boolean py then eval_ret false
        else falsy_prop userData "pool_month") ;;
  (if c then login <- completed (get_prop userData "login") ;;
             completed (to_string login) ;;;
             emit (ConsoleWarnNoPool login)
   else eval_ret tt) ;;;
  eval_ret true.

End FortyTwoAPI.


(** ** utils.js *)

Module Utils.

(** [maxAge = 10 * 60 * 1000] *)
Definition default_maxAge : Z := 10 * 60 * 1000.

(** [now - verification.timestamp > maxAge] *)
Definition expired (now maxAge : Z) (verification : Verification) : bool :=
  bool_decide (now - timestamp verification > maxAge).

(** One turn of the [for ... of pendingVerifications.entries()] loop, on the
    map and [cleanedCount]. *)
Definition cleanup_entry (now maxAge : Z) (acc : Registry * nat)
    (entry : string * Verification) : Registry * nat :=
  if expired now maxAge entry.2
  then (delete entry.1 acc.1, S acc.2)
  else acc.

(** The loop, on the map and the local [cleanedCount]. It only deletes the
    entry it is visiting, so iterating the live map visits the entries the
    map had on entry. [maxAge = None] is a call without the second argument;
    [now] is [Date.now()]. *)
Definition cleanup_loop (now : Z)
    (pendingVerifications : Registry) (maxAge : option Z) : Registry * nat :=
  foldl (cleanup_entry now (default default_maxAge maxAge))
        (pendingVerifications, 0%nat)
        (map_to_list pendingVerifications).

(** The local [cleanedCount] when the loop is done: when it is positive it
    goes into the 'Cleanup Complete' debug line, and nowhere else. *)
Definition cleanedCount (now : Z) (pendingVerifications : Registry)
    (maxAge : option Z) : nat :=
  (cleanup_loop now pendingVerifications maxAge).2.

(** [cleanupExpiredVerifications(pendingVerifications, maxAge)]: the map
    after the call, and the result, which is [undefined] since the function
    has no [return]. *)
Definition cleanupExpiredVerifications (now : Z)
    (pendingVerifications : Registry) (maxAge : option Z) : Registry * unit :=
  ((cleanup_loop now pendingVerifications maxAge).1, tt).

End Utils.

(** ** Request handlers: registry state, effect trace, completion *)

Record Outcome (A : Type) : Type := mkOutcome {
  registry : Registry;
  trace : list Effect;
  completion : Completion A
}.
Arguments mkOutcome {A} _ _ _.
Arguments registry {A} _.
Arguments trace {A} _.
Arguments completion {A} _.

Definition Handler (A : Type) : Type := Registry → Outcome A.

Definition ret {A} (a : A) : Handler A :=
  fun reg => mkOutcome reg [] (Normal a).

Definition throw {A} (e : JsError) : Handler A :=
  fun reg => mkOutcome reg [] (Throw e).

Definition bind {A B} (m : Handler A) (k : A → Handler B) : Handler B :=
  fun reg =>
    match m reg with
    | mkOutcome reg1 tr1 (Normal a) =>
        match k a reg1 with
        | mkOutcome reg2 tr2 c => mkOutcome reg2 (tr1 ++ tr2) c
        end
    | mkOutcome reg1 tr1 (Throw e) => mkOutcome reg1 tr1 (Throw e)
    end.

(** [try { body } catch (error) { handler }]: the handler runs in the
    registry the body left behind. *)
Definition try_catch {A} (body : Handler A) (handler : JsError → Handler A)
    : Handler A :=
  fun reg =>
    match body reg with
    | mkOutcome reg1 tr1 (Normal a) => mkOutcome reg1 tr1 (Normal a)
    | mkOutcome reg1 tr1 (Throw e) =>
        match handler e reg1 with
        | mkOutcome reg2 tr2 c => mkOutcome reg2 (tr1 ++ tr2) c
        end
    end.

Definition lift {A} (m : Eval A) : Handler A :=
  fun reg => mkOutcome reg m.1 m.2.

(** [await call], leaving [effect] in the trace. *)
Definition await {A} (effect : Effect) (result : Completion A) : Handler A :=
  fun reg => mkOutcome reg [effect] result.

Definition map_get (state : string) : Handler (option Verification) :=
  fun reg => mkOutcome reg [] (Normal (reg !! state)).

Definition map_set (state : string) (verification : Verification) : Handler unit :=
  fun reg => mkOutcome (<[state := verification]> reg)
                       [MapSet state verification] (Normal tt).

Definition map_delete (state : string) : Handler unit :=
  fun reg => mkOutcome (delete state reg) [MapDelete state] (Normal tt).

Declare Scope handler_scope.
Delimit Scope handler_scope with handler.
Notation "x <- m ;; k" := (bind m (fun x => k))
  (at level 100, m at next level, right associativity) : handler_scope.
Notation "m ;;; k" := (bind m (fun _ => k))
  (at level 100, right associativity) : handler_scope.

(** ** index.js *)

(** The pages the handlers send, one constructor per template. *)
Inductive Page : Type :=
| CallbackErrorPage (error : string)
| MissingParametersPage
| InvalidStatePage
| RulesPage (state : string)
| VerificationErrorPage (message : string)
| MissingStatePage
| InvalidRulesStatePage
| SuccessPage
| DeclinedPage.

Definition utf8 (bytes : list nat) : string :=
  String.string_of_list_ascii (Ascii.ascii_of_nat <$> bytes).

Definition dquote : string := utf8 [34%nat].
Definition cross_mark : string := utf8 [226; 157; 140]%nat.
Definition party_popper : string := utf8 [240; 159; 142; 137]%nat.

Definition page_title (p : Page) : string :=
  match p with
  | CallbackErrorPage _ | MissingParametersPage | InvalidStatePage
  | VerificationErrorPage _ => "Verification Failed"
  | RulesPage _ => "Queernel Rules - Accept to Continue"
  | MissingStatePage | InvalidRulesStatePage => "Error"
  | SuccessPage => "Verification Successful"
  | DeclinedPage => "Verification Declined"
  end.

(** The [<h1>] element. *)
Definition page_heading (p : Page) : string :=
  match p with
  | CallbackErrorPage _ | MissingParametersPage | InvalidStatePage
  | VerificationErrorPage _ => cross_mark +:+ " Verification Failed"
  | RulesPage _ => party_popper +:+ " Welcome to Queernel!"
  | MissingStatePage | InvalidRulesStatePage => cross_mark +:+ " Error"
  | SuccessPage => "Verification Successful!"
  | DeclinedPage => "Verification Declined"
  end.

(** The [<p>] elements of the page, in order. *)
Definition page_paragraphs (p : Page) : list string :=
  match p with
  | CallbackErrorPage error =>
      ["Error: " +:+ error; "Please try again or contact an administrator."]
  | MissingParametersPage =>
      ["Missing authorization code or state parameter."; "Please try again."]
  | InvalidStatePage | InvalidRulesStatePage =>
      ["Invalid or expired verification request.";
       "Please try joining the server again."]
  | RulesPage _ =>
      ["Please read and accept the rules above to continue with the verification process."]
  | VerificationErrorPage message =>
      ["An error occurred during verification: " +:+ message;
       "Please try again or contact an administrator."]
  | MissingStatePage =>
      ["Missing state parameter."; "Please try joining the server again."]
  | SuccessPage =>
      ["You have successfully accepted the rules and been verified as a 42 student.";
       "The " +:+ dquote +:+ "42" +:+ dquote +:+ " role has been added to your Discord account.";
       "You can now close this window and return to Discord."]
  | DeclinedPage =>
      ["You have declined to accept the Queernel rules.";
       "You will not receive the " +:+ dquote +:+ "42" +:+ dquote
         +:+ " role and cannot access all server features.";
       "If you change your mind, you can try joining the server again."]
  end.

(** The links of the page. *)
Definition page_links (p : Page) : list string :=
  match p with
  | RulesPage state =>
      ["/auth/rules/accept?state=" +:+ state; "/auth/rules/decline?state=" +:+ state]
  | _ => []
  end.

(** [req.query] *)
Record Query := mkQuery {
  query_code : option string;
  query_state : option string;
  query_error : option string
}.

(** What the Discord client answers during one request. [members_fetch]
    resolves with whether the member object is truthy. *)
Record Discord := {
  guilds_cache_get : bool;
  members_fetch : string → Completion bool;
  roles_cache_get : bool;
  bot_member_cached : bool;
  roles_add : string → Completion unit;
  member_send : string → Completion unit;
  system_channel : option (Completion unit)
}.

Record World := {
  axios : Axios;
  discord : Discord
}.

Module Server.

Local Open Scope handler_scope.

(** [verification.step !== 'rules_pending'] *)
Definition step_is_not_rules_pending (verification : Verification) : bool :=
  match step verification with
  | Some s => negb (String.eqb s "rules_pending")
  | None => true
  end.

(** [verification.userData.key], where a missing [userData] is [undefined]. *)
Definition userData_prop (verification : Verification) (key : string)
    : Completion JsVal :=
  get_prop (default JUndefined (userData verification)) key.

(** [{ ...verification, userData: userData, step: 'rules_pending' }] *)
Definition rules_pending_record (verification : Verification)
    (userData : JsVal) : Verification :=
  {| discordUserId := discordUserId verification;
     discordUsername := discordUsername verification;
     timestamp := timestamp verification;
     userData := Some userData;
     step := Some "rules_pending" |}.

(** [app.get('/auth/callback', ...)] *)
Definition auth_callback (w : World) (query : Query) : Handler Page :=
  let code := query_code query in
  let state := query_state query in
  let error := query_error query in
  if truthy error then ret (CallbackErrorPage (default "" error)) else
  if negb (truthy code) || negb (truthy state) then ret MissingParametersPage else
  let code := default "" code in
  let state := default "" state in
  (* Verify state parameter *)
  verification <- map_get state ;;
  match verification with
  | None => ret InvalidStatePage
  | Some verification =>
    try_catch
      ((* Exchange code for access token *)
       tokenResponse <- lift (FortyTwoAPI.exchangeCodeForToken (axios w) code) ;;
       access_token <- lift (completed (get_prop tokenResponse "access_token")) ;;
       (* Get user information from 42 API *)
       userData <- lift (FortyTwoAPI.getUserInfo (axios w) access_token) ;;
       _ <- lift (completed (get_prop userData "login")) ;;
       _ <- lift (completed (get_prop userData "displayname")) ;;
       _ <- lift (completed (get_prop userData "email")) ;;
       (* Validate student status *)
       valid <- lift (FortyTwoAPI.validateStudentStatus userData) ;;
       if negb valid
       then throw (Error "User is not a valid 42 student or is staff") else
       (* Find the member in the Discord server *)
       if negb (guilds_cache_get (discord w)) then throw (Error "Guild not found") else
       member <- await (MembersFetch (discordUserId verification))
                   (members_fetch (discord w) (discordUserId verification)) ;;
       if negb member then throw (Error "Member not found in guild") else
       (* Store user data for rules acceptance step *)
       map_set state (rules_pending_record verification userData) ;;;
       (* Send rules acceptance page *)
       ret (RulesPage state))
      (fun error =>
         (* Clean up *)
         map_delete state ;;;
         ret (VerificationErrorPage (message error)))
  end.

(** [app.get('/auth/rules/accept', ...)] *)
Definition rules_accept (w : World) (query : Query) : Handler Page :=
  let state := query_state query in
  if negb (truthy state) then ret MissingStatePage else
  let state := default "" state in
  (* Verify state parameter *)
  verification <- map_get state ;;
  match verification with
  | None => ret InvalidRulesStatePage
  | Some verification =>
    if step_is_not_rules_pending verification then ret InvalidRulesStatePage else
    (* arguments of the 'Rules Accepted' debug call, outside the try *)
    _ <- lift (completed (userData_prop verification "login")) ;;
    _ <- lift (completed (userData_prop verification "displayname")) ;;
    try_catch
      ((* Find the member in the Discord server *)
       if negb (guilds_cache_get (discord w)) then throw (Error "Guild not found") else
       member <- await (MembersFetch (discordUserId verification))
                   (members_fetch (discord w) (discordUserId verification)) ;;
       if negb member then throw (Error "Member not found in guild") else
       (* Add the 42 role *)
       if negb (roles_cache_get (discord w)) then throw (Error "42 role not found") else
       (* botMember.roles.highest *)
       if negb (bot_member_cached (discord w)) then throw (TypeError "undefined" "roles") else
       try_catch
         (await (RolesAdd (discordUserId verification))
            (roles_add (discord w) (discordUserId verification)))
         (fun roleError =>
            throw (Error ("Failed to assign role: " +:+ message roleError))) ;;;
       (* Send success message *)
       try_catch
         (await (MemberSend (discordUserId verification))
            (member_send (discord w) (discordUserId verification)))
         (fun dmError => ret tt) ;;;
       (* Clean up *)
       map_delete state ;;;
       (* Send success page *)
       ret SuccessPage)
      (fun error =>
         (* Clean up *)
         map_delete state ;;;
         ret (VerificationErrorPage (message error)))
  end.

(** [app.get('/auth/rules/decline', ...)] *)
Definition rules_decline (query : Query) : Handler Page :=
  let state := query_state query in
  if negb (truthy state) then ret MissingStatePage else
  let state := default "" state in
  (* Verify state parameter *)
  verification <- map_get state ;;
  match verification with
  | None => ret InvalidRulesStatePage
  | Some verification =>
    if step_is_not_rules_pending verification then ret InvalidRulesStatePage else
    (* arguments of the 'Rules Declined' debug call *)
    _ <- lift (completed (userData_prop verification "login")) ;;
    _ <- lift (completed (userData_prop verification "displayname")) ;;
    (* Clean up *)
    map_delete state ;;;
    (* Send decline page *)
    ret DeclinedPage
  end.

(** The member of a [GuildMemberAdd] event. *)
Record Member := mkMember {
  in_configured_guild : bool;
  has_42_role : bool;
  user_id : string;
  user_tag : string
}.

(** [client.on(Events.GuildMemberAdd, ...)]; [state] is the value
    [generateState()] returns and [now] is [Date.now()]. *)
Definition guildMemberAdd (w : World) (member : Member) (state : string)
    (now : Z) : Handler unit :=
  (* Only process if it's the Queernel server *)
  if negb (in_configured_guild member) then ret tt else
  (* Check if user already has the 42 role *)
  if has_42_role member then ret tt else
  (* Store the verification attempt *)
  map_set state
    {| discordUserId := user_id member;
       discordUsername := user_tag member;
       timestamp := now;
       userData := None;
       step := None |} ;;;
  try_catch
    ((* Send welcome message with verification link *)
     await (MemberSend (user_id member)) (member_send (discord w) (user_id member)))
    (fun error =>
       (* If DM fails, try to send in a public channel *)
       match system_channel (discord w) with
       | Some sent => await (SystemChannelSend (user_id member)) sent
       | None => ret tt
       end).

(** The [setInterval] callback: [cleanupExpiredVerifications(pendingVerifications)]. *)
Definition cleanup_tick (now : Z) : Handler unit :=
  fun reg =>
    mkOutcome (Utils.cleanupExpiredVerifications now reg None).1 [] (Normal tt).

(** What the process reacts to. *)
Inductive Event : Type :=
| GuildMemberAdd (member : Member) (state : string) (now : Z)
| AuthCallback (query : Query)
| RulesAccept (query : Query)
| RulesDecline (query : Query)
| CleanupTick (now : Z).

(** One event, run to completion; the page when the event is a request. *)
Definition handle (w : World) (e : Event) : Handler (option Page) :=
  match e with
  | GuildMemberAdd member state now => guildMemberAdd w member state now ;;; ret None
  | AuthCallback query => page <- auth_callback w query ;; ret (Some page)
  | RulesAccept query => page <- rules_accept w query ;; ret (Some page)
  | RulesDecline query => page <- rules_decline query ;; ret (Some page)
  | CleanupTick now => cleanup_tick now ;;; ret None
  end.

End Server.

(** ** Runs of the process *)

Module Run.

Import Server.

(** A grant is a call of [member.roles.add]. *)
Definition is_grant (e : Effect) : bool :=
  match e with RolesAdd _ => true | _ => false end.

Definition grant_calls (tr : list Effect) : nat := length (List.filter is_grant tr).

(** The record of [t] is waiting for the identity callback: present, no step. *)
Definition awaiting_identity (reg : Registry) (t : string) : bool :=
  match reg !! t with
  | Some v => match step v with None => true | Some _ => false end
  | None => false
  end.

(** The record of [t] is waiting for consent: present, step ['rules_pending']. *)
Definition awaiting_consent (reg : Registry) (t : string) : bool :=
  match reg !! t with
  | Some v => negb (step_is_not_rules_pending v)
  | None => false
  end.

(** The step of [t]'s record changes from absent to ['rules_pending']. *)
Definition confirms (t : string) (before after : Registry) : bool :=
  awaiting_identity before t && awaiting_consent after t.

(** The write of lines 305-309: [t]'s record is set with step
    ['rules_pending'] and claims attached. *)
Definition consent_write (t : string) (e : Effect) : bool :=
  match e with
  | MapSet state v =>
      String.eqb state t && negb (step_is_not_rules_pending v)
      && match userData v with Some _ => true | None => false end
  | _ => false
  end.

(** Effects that neither grant nor write a record. *)
Definition harmless (e : Effect) : bool :=
  match e with
  | RolesAdd _ | MapSet _ _ => false
  | _ => true
  end.

(** The callback fails: the record of [t] is deleted and the failure page
    with [msg] is sent, after harmless effects only. *)
Definition callback_failed (o : Outcome Page) (t : string) (reg : Registry)
    (msg : string) : Prop :=
  registry o = delete t reg
  ∧ completion o = Normal (VerificationErrorPage msg)
  ∧ ∃ pre, trace o = pre ++ [MapDelete t] ∧ forallb harmless pre = true.

(** The identity step is rejected: record deleted, failure page with [msg],
    and no grant among the effects. *)
Definition rejected (o : Outcome Page) (t : string) (reg : Registry)
    (msg : string) : Prop :=
  registry o = delete t reg
  ∧ completion o = Normal (VerificationErrorPage msg)
  ∧ grant_calls (trace o) = 0%nat.

(** The record is waiting for consent with claims attached: step
    ['rules_pending'] and a [userData] that is an actual value. *)
Definition consent_pending (v : Verification) : Prop :=
  step v = Some "rules_pending"
  ∧ ∃ u, userData v = Some u ∧ to_boolean u = true.

(** The messages of the failure page after an identity failure: a failed
    code exchange, a failed claims fetch, or claims that are not eligible. *)
Definition identity_failure_message (msg : string) : Prop :=
  (∃ ax code e,
     (FortyTwoAPI.exchangeCodeForToken ax code).2 = Throw e ∧ msg = message e)
  ∨ (∃ ax tok e,
       (FortyTwoAPI.getUserInfo ax tok).2 = Throw e ∧ msg = message e)
  ∨ msg = "User is not a valid 42 student or is staff".

(** The callback confirms the identity: the record of [t] is replaced by the
    consent-pending one and the rules page is sent. *)
Definition callback_confirmed (o : Outcome Page) (t : string) (reg : Registry)
    (v : Verification) (u : JsVal) : Prop :=
  registry o = <[t := rules_pending_record v u]> reg
  ∧ completion o = Normal (RulesPage t)
  ∧ ∃ pre, trace o = pre ++ [MapSet t (rules_pending_record v u)]
           ∧ forallb harmless pre = true.

(** What the callback does on a live record, by the answers of the world. *)
Definition callback_post (w : World) (code t : string) (reg : Registry)
    (v : Verification) (o : Outcome Page) : Prop :=
  match (FortyTwoAPI.exchangeCodeForToken (axios w) code).2 with
  | Throw e => callback_failed o t reg (message e)
  | Normal tokenResponse =>
    match (FortyTwoAPI.getUserInfo (axios w)
             (read tokenResponse "access_token")).2 with
    | Throw e => callback_failed o t reg (message e)
    | Normal u =>
      match (FortyTwoAPI.validateStudentStatus u).2 with
      | Normal true =>
        if guilds_cache_get (discord w) then
          match members_fetch (discord w) (discordUserId v) with
          | Normal true => callback_confirmed o t reg v u
          | Normal false => callback_failed o t reg "Member not found in guild"
          | Throw e => callback_failed o t reg (message e)
          end
        else callback_failed o t reg "Guild not found"
      | Normal false =>
          callback_failed o t reg "User is not a valid 42 student or is staff"
      | Throw e => callback_failed o t reg (message e)
      end
    end
  end.

(** The identity checks of the callback passed for the request [q] with
    claims [u]: the token exchange succeeded, the claims fetch succeeded and
    [validateStudentStatus] returned true. *)
Definition identity_checked (w : World) (q : Query) (u : JsVal) : Prop :=
  ∃ code tokenResponse,
    query_code q = Some code
    ∧ (FortyTwoAPI.exchangeCodeForToken (axios w) code).2 = Normal tokenResponse
    ∧ (FortyTwoAPI.getUserInfo (axios w) (read tokenResponse "access_token")).2
      = Normal u
    ∧ (FortyTwoAPI.validateStudentStatus u).2 = Normal true.

(** Where the record of [t] is in its life: waiting for the identity
    callback, further on, or gone. *)
Definition phase (reg : Registry) (t : string) : nat :=
  match reg !! t with
  | Some v => match step v with None => 0 | Some _ => 1 end
  | None => 2
  end.

(** The event starts a new record under [t]. *)
Definition creates (t : string) (e : Event) : bool :=
  match e with
  | GuildMemberAdd _ state _ => String.eqb state t
  | _ => false
  end.

(** The record of [k] after an event: unchanged, gone, freshly created by a
    join, or confirmed by the identity callback. *)
Inductive record_change (w : World) (e : Event) (reg reg' : Registry)
    (k : string) : Prop :=
| Unchanged : reg' !! k = reg !! k → record_change w e reg reg' k
| Gone : reg' !! k = None → record_change w e reg reg' k
| Created (v : Verification) :
    creates k e = true → reg' !! k = Some v → step v = None →
    record_change w e reg reg' k
| Confirmed (q : Query) (v : Verification) (u : JsVal) :
    e = AuthCallback q → query_state q = Some k →
    reg !! k = Some v → reg' !! k = Some (rules_pending_record v u) →
    identity_checked w q u →
    record_change w e reg reg' k.

(** Every record either has no step yet or is waiting for consent with
    claims attached. *)
Definition well_formed (reg : Registry) : Prop :=
  ∀ t v, reg !! t = Some v → step v = None ∨ consent_pending v.

(** Events are handled one after the other, each with the answers the
    outside world gives during it. *)
Fixpoint run (events : list (World * Event)) (reg : Registry) : Registry * list Effect :=
  match events with
  | [] => (reg, [])
  | (w, e) :: rest =>
      let o := handle w e reg in
      let '(reg', tr) := run rest (registry o) in
      (reg', trace o ++ tr)
  end.

Fixpoint confirmations (t : string) (events : list (World * Event))
    (reg : Registry) : nat :=
  match events with
  | [] => 0
  | (w, e) :: rest =>
      let reg' := registry (handle w e reg) in
      ((if confirms t reg reg' then 1 else 0) + confirmations t rest reg')%nat
  end.

Definition consent_writes (t : string) (events : list (World * Event))
    (reg : Registry) : nat :=
  length (List.filter (consent_write t) (run events reg).2).

(** A stretch of a run inside one lifetime of [t]'s record: no event in it
    creates a record under [t]. *)
Definition within_lifetime (t : string) (events : list (World * Event)) : bool :=
  forallb (fun we => negb (creates t we.2)) events.

End Run.

(** ** Statements of the specification that the code does not satisfy *)

Module Stated.

Import Server Run.


(** A malformed callback and a callback with an unknown state get the same
    response. *)
Definition malformed_indistinguishable_from_unknown : Prop :=
  ∀ (w : World) (reg : Registry) (malformed unknown : Query),
    truthy (query_error malformed) = false →
    (truthy (query_code malformed) = false
     ∨ truthy (query_state malformed) = false) →
    truthy (query_error unknown) = false →
    truthy (query_code unknown) = true →
    truthy (query_state unknown) = true →
    reg !! default "" (query_state unknown) = None →
    completion (auth_callback w malformed reg)
    = completion (auth_callback w unknown reg).

(** Over the lifetime of a record, from the join that creates it to the
    event after which it is gone, the consent-pending write happens once. *)
Definition consent_written_exactly_once : Prop :=
  ∀ (t : string) (join : World * Event) (events : list (World * Event)),
    creates t join.2 = true →
    within_lifetime t events = true →
    (run (join :: events) ∅).1 !! t = None →
    consent_writes t (join :: events) ∅ = 1%nat.

(** The same, counting the changes of the step from absent to
    ['rules_pending']. *)
Definition step_confirmed_exactly_once : Prop :=
  ∀ (t : string) (join : World * Event) (events : list (World * Event)),
    creates t join.2 = true →
    within_lifetime t events = true →
    (run (join :: events) ∅).1 !! t = None →
    confirmations t (join :: events) ∅ = 1%nat.

End Stated.

(** ** The claim payload, in the words of the specification *)

Module Claims.

Definition absent (u : JsVal) : bool :=
  match u with JUndefined | JNull => true | _ => false end.

(** No login (or email): the field is missing, null or the empty string. *)
Definition lacks (u : JsVal) (key : string) : bool :=
  match read u key with
  | JUndefined | JNull => true
  | JStr s => String.eqb s ""
  | _ => false
  end.


Definition flagged_staff (u : JsVal) : bool :=
  match read u "staff?" with JBool true => true | _ => false end.


(** An empty or missing array. *)
Definition no_entries (u : JsVal) (key : string) : bool :=
  match read u key with
  | JUndefined | JNull | JArr [] => true
  | _ => false
  end.


(** An explicit active flag equal to false. *)
Definition flagged_inactive (u : JsVal) : bool :=
  match read u "active?" with JBool false => true | _ => false end.

Definition fails_a_condition (u : JsVal) : bool :=
  absent u || lacks u "login" || lacks u "email" || flagged_staff u
  || no_entries u "cursus_users" || no_entries u "campus" || flagged_inactive u.


(** [u.key = v] on an object; other values are left as they are. *)
Definition define_prop (key : string) (v : JsVal) (u : JsVal) : JsVal :=
  match u with
  | JObj props => JObj ((key, v) :: props)
  | _ => u
  end.



(** The verdict of the predicate, when it returns. *)
Definition verdict (u : JsVal) : Completion bool :=
  (FortyTwoAPI.validateStudentStatus u).2.

Definition has_entries (v : JsVal) : bool :=
  to_boolean v && negb (strict_eq_num (read v "length") 0).

(** The predicate as one boolean expression over the payload. *)
Definition eligible (u : JsVal) : bool :=
  to_boolean u
  && to_boolean (read u "login") && to_boolean (read u "email")
  && negb (to_boolean (read u "staff?"))
  && has_entries (read u "cursus_users")
  && has_entries (read u "campus")
  && negb (strict_eq_false (read u "active?")).

Definition pool_warning (u : JsVal) : list Effect :=
  if negb (to_boolean (read u "pool_year")) && negb (to_boolean (read u "pool_month"))
  then [ConsoleWarnNoPool (read u "login")] else [].

(** The warning is due and its text cannot be built: neither pool field is
    truthy and the conversion of the login throws. *)
Definition warning_fails (u : JsVal) : bool :=
  negb (to_boolean (read u "pool_year")) && negb (to_boolean (read u "pool_month"))
  && to_string_throws (read u "login").

End Claims.

(** ** Statements about the predicate that the code does not satisfy *)

Module StatedEligibility.

Import Claims.



End StatedEligibility.

(** ** Fixtures *)

Definition fixture : JsVal :=
  JObj [("login", JStr "jdoe"); ("email", JStr "jdoe@student.42.fr");
        ("staff?", JBool false);
        ("cursus_users", JArr [JObj [("cursus_id", JNum 21)]]);
        ("campus", JArr [JObj [("name", JStr "Paris")]]);
        ("active?", JBool true); ("pool_year", JStr "2019");
        ("pool_month", JStr "july")].

Definition staff_fixture : JsVal := Claims.define_prop "staff?" (JBool true) fixture.

(** A payload that passes the five tests, without pool fields, whose login
    is an object with a property named [toString]. *)
Definition unrenderable_fixture : JsVal :=
  JObj [("login", JObj [("toString", JNum 1)]);
        ("email", JStr "jdoe@student.42.fr");
        ("staff?", JBool false);
        ("cursus_users", JArr [JObj [("cursus_id", JNum 21)]]);
        ("campus", JArr [JObj [("name", JStr "Paris")]]);
        ("active?", JBool true)].

Definition token : string := "5f2c9a1d".

Definition pending : Verification :=
  {| discordUserId := "1001"; discordUsername := "jdoe#0001";
     timestamp := 1700000000000; userData := None; step := None |}.

Definition consenting : Verification := Server.rules_pending_record pending fixture.

Definition registry_pending : Registry := {[ token := pending ]}.
Definition registry_consenting : Registry := {[ token := consenting ]}.

(** A world in which the provider returns [claims] and Discord accepts
    every call. *)
Definition world_with (claims : JsVal) : World :=
  {| axios :=
       {| axios_post := fun _ => Normal (JObj [("access_token", JStr "at-1")]);
          axios_get := fun _ => Normal claims |};
     discord :=
       {| guilds_cache_get := true;
          members_fetch := fun _ => Normal true;
          roles_cache_get := true;
          bot_member_cached := true;
          roles_add := fun _ => Normal tt;
          member_send := fun _ => Normal tt;
          system_channel := None |} |}.

(** The same world, with a role hierarchy that makes the grant fail. *)
Definition world_misconfigured : World :=
  {| axios := axios (world_with fixture);
     discord :=
       {| guilds_cache_get := true;
          members_fetch := fun _ => Normal true;
          roles_cache_get := true;
          bot_member_cached := true;
          roles_add := fun _ => Throw (Error "Missing Permissions");
          member_send := fun _ => Normal tt;
          system_channel := None |} |}.

Definition joining : Server.Member :=
  {| Server.in_configured_guild := true; Server.has_42_role := false;
     Server.user_id := "1001"; Server.user_tag := "jdoe#0001" |}.

Definition callback_query : Query := mkQuery (Some "abc") (Some token) None.

(** The member authorises twice through the same link (two codes, one
    state) and then declines. *)
Definition run_confirmed_twice : list (World * Server.Event) :=
  [(world_with fixture, Server.AuthCallback callback_query);
   (world_with fixture,
    Server.AuthCallback (mkQuery (Some "def") (Some token) None));
   (world_with fixture, Server.RulesDecline (mkQuery None (Some token) None))].

(** The provider reports a staff account. *)
Definition run_rejected : list (World * Server.Event) :=
  [(world_with staff_fixture, Server.AuthCallback callback_query)].

Definition join_event : World * Server.Event :=
  (world_with fixture, Server.GuildMemberAdd joining token 1700000000000).
Definition consent_query : Query := mkQuery None (Some token) None.

(** ** More of utils.js: state tokens and the authorisation URL *)

Module Token.

(** The digits of [Buffer.toString('hex')]. *)
Definition hex_digits : string := "0123456789abcdef".

Definition hex_digit (n : N) : ascii :=
  default "0"%char (String.get (N.to_nat n) hex_digits).

(** The two digits of one byte, high nibble first. *)
Definition hex_of_byte (b : byte) (rest : string) : string :=
  String (hex_digit (Byte.to_N b / 16))
    (String (hex_digit (Byte.to_N b mod 16)) rest).

(** [buffer.toString('hex')] *)
Definition to_hex (buffer : list byte) : string :=
  foldr hex_of_byte "" buffer.

(** [generateState()], given what [crypto.randomBytes] returns for a
    length. *)
Definition generateState (randomBytes : nat → list byte) : string :=
  to_hex (randomBytes 32%nat).

Definition is_hex_digit (c : ascii) : bool :=
  let n := N_of_ascii c in
  ((48 <=? n) && (n <=? 57) || (97 <=? n) && (n <=? 102))%N.

(** The value of a hex digit; used to read a token back. *)
Definition hex_value (c : ascii) : option N :=
  let n := N_of_ascii c in
  if ((48 <=? n) && (n <=? 57))%N then Some (n - 48)%N
  else if ((97 <=? n) && (n <=? 102))%N then Some (n - 87)%N
  else None.

(** The inverse of [to_hex]: [Buffer.from(s, 'hex')] on well-formed input. *)
Fixpoint of_hex (s : string) : option (list byte) :=
  match s with
  | EmptyString => Some []
  | String hi (String lo rest) =>
      match hex_value hi, hex_value lo, of_hex rest with
      | Some h, Some l, Some bytes =>
          match Byte.of_N (h * 16 + l) with
          | Some b => Some (b :: bytes)
          | None => None
          end
      | _, _, _ => None
      end
  | String _ EmptyString => None
  end.

(** Every character of [s] satisfies [p]. *)
Fixpoint all_chars (p : ascii → bool) (s : string) : bool :=
  match s with
  | EmptyString => true
  | String c rest => p c && all_chars p rest
  end.

End Token.

Module AuthUrl.

(** Characters the [application/x-www-form-urlencoded] serialiser of
    [URLSearchParams] leaves as they are: ASCII letters and digits and
    [* - . _]. *)
Definition unreserved (c : ascii) : bool :=
  let n := N_of_ascii c in
  ((48 <=? n) && (n <=? 57) || (65 <=? n) && (n <=? 90)
   || (97 <=? n) && (n <=? 122)
   || (n =? 42) || (n =? 45) || (n =? 46) || (n =? 95))%N.

Definition upper_hex_digit (n : N) : ascii :=
  default "0"%char (String.get (N.to_nat n) "0123456789ABCDEF").

(** One byte of a value: itself, [+] for a space, or [%XX]. *)
Definition encode_byte (c : ascii) (rest : string) : string :=
  if unreserved c then String c rest
  else if Ascii.eqb c " " then String "+" rest
  else String "%" (String (upper_hex_digit (N_of_ascii c / 16))
                     (String (upper_hex_digit (N_of_ascii c mod 16)) rest)).

Fixpoint form_urlencode (s : string) : string :=
  match s with
  | EmptyString => EmptyString
  | String c rest => encode_byte c (form_urlencode rest)
  end.

(** The serialisation of the search parameters, in the order they were
    set. *)
Fixpoint serialize (params : list (string * string)) : string :=
  match params with
  | [] => ""
  | [(k, v)] => form_urlencode k +:+ "=" +:+ form_urlencode v
  | (k, v) :: rest =>
      form_urlencode k +:+ "=" +:+ form_urlencode v +:+ "&" +:+ serialize rest
  end.

(** [createAuthUrl(clientId, redirectUri, state)]: the five parameters are
    set on a URL without a query, so they appear in this order. *)
Definition createAuthUrl (clientId redirectUri state : string) : string :=
  "https://api.intra.42.fr/oauth/authorize?"
  +:+ serialize [("client_id", clientId); ("redirect_uri", redirectUri);
                 ("response_type", "code"); ("scope", "public");
                 ("state", state)].

(** The characters a serialised value can contain. *)
Definition encoded_char (c : ascii) : bool :=
  unreserved c || Ascii.eqb c "+" || Ascii.eqb c "%".

End AuthUrl.

(** ** More of fortytwo-api.js and utils.js: reading the claims *)

Module Profile.

Local Open Scope eval_scope.

(** [v[0]]. On a string this is its first unit as a string; the program
    only reads named properties of the result, which a string does not
    have. *)
Definition get_first (v : JsVal) : Completion JsVal :=
  match v with
  | JUndefined => Throw (TypeError "undefined" "0")
  | JNull => Throw (TypeError "null" "0")
  | JBool _ | JNum _ => Normal JUndefined
  | JStr s =>
      Normal (match s with
              | String c _ => JStr (String c "")
              | EmptyString => JUndefined
              end)
  | JArr items => Normal (default JUndefined (head items))
  | JObj props => Normal (own_property props "0")
  end.

(** [validate42User(userData)] of utils.js. The arguments of its debug
    calls read with [?.] or read properties of values already known to be
    truthy, so they cannot throw. *)
Definition validate42User (userData : JsVal) : Eval bool :=
  (* Basic validation - check if user has required fields *)
  c <- FortyTwoAPI.or_else (eval_ret (negb (to_boolean userData)))
         (FortyTwoAPI.or_else (FortyTwoAPI.falsy_prop userData "login")
            (FortyTwoAPI.falsy_prop userData "email")) ;;
  if c then eval_ret false else
  (* Check if user has any cursus *)
  c <- FortyTwoAPI.missing_or_empty userData "cursus_users" ;;
  if c then eval_ret false else
  eval_ret true.

(** [getPrimaryCampus(userData)] *)
Definition getPrimaryCampus (userData : JsVal) : Eval JsVal :=
  c <- FortyTwoAPI.missing_or_empty userData "campus" ;;
  if c then eval_ret JNull else
  campus <- completed (get_prop userData "campus") ;;
  first <- completed (get_first campus) ;;
  completed (get_prop first "name").

(** [getPrimaryCursus(userData)] *)
Definition getPrimaryCursus (userData : JsVal) : Eval JsVal :=
  c <- FortyTwoAPI.missing_or_empty userData "cursus_users" ;;
  if c then eval_ret JNull else
  cursus_users <- completed (get_prop userData "cursus_users") ;;
  first <- completed (get_first cursus_users) ;;
  cursus <- completed (get_prop first "cursus") ;;
  completed (get_prop cursus "name").

(** [getCurrentLevel(userData)] *)
Definition getCurrentLevel (userData : JsVal) : Eval JsVal :=
  c <- FortyTwoAPI.missing_or_empty userData "cursus_users" ;;
  if c then eval_ret JNull else
  cursus_users <- completed (get_prop userData "cursus_users") ;;
  first <- completed (get_first cursus_users) ;;
  completed (get_prop first "level").

(** [x || false] *)
Definition or_false (x : JsVal) : JsVal :=
  if to_boolean x then x else JBool false.

(** [createUserSummary(userData)]: the properties of the object literal are
    evaluated in the order they are written. *)
Definition createUserSummary (userData : JsVal) : Eval JsVal :=
  login <- completed (get_prop userData "login") ;;
  displayName <- completed (get_prop userData "displayname") ;;
  email <- completed (get_prop userData "email") ;;
  campus <- getPrimaryCampus userData ;;
  cursus <- getPrimaryCursus userData ;;
  level <- getCurrentLevel userData ;;
  poolYear <- completed (get_prop userData "pool_year") ;;
  poolMonth <- completed (get_prop userData "pool_month") ;;
  correctionPoints <- completed (get_prop userData "correction_point") ;;
  wallet <- completed (get_prop userData "wallet") ;;
  staff <- completed (get_prop userData "staff?") ;;
  imageUrl <- completed (get_prop userData "image_url") ;;
  location <- completed (get_prop userData "location") ;;
  eval_ret (JObj [("login", login); ("displayName", displayName);
                  ("email", email); ("campus", campus); ("cursus", cursus);
                  ("level", level); ("poolYear", poolYear);
                  ("poolMonth", poolMonth);
                  ("correctionPoints", correctionPoints); ("wallet", wallet);
                  ("isStaff", or_false staff); ("imageUrl", imageUrl);
                  ("location", location)]).

(** The first entry of a list of the claims, [undefined] when there is
    none. *)
Definition first_of (u : JsVal) (key : string) : JsVal :=
  match get_first (read u key) with
  | Normal v => v
  | Throw _ => JUndefined
  end.

(** [add42Role(member, roleId)] of utils.js, for the member with this id. *)
Definition add42Role (d : Discord) (memberId : string) : Eval bool :=
  eval_try
    (if negb (roles_cache_get d) then eval_throw (Error "42 role not found")
     else
       emit (RolesAdd memberId) ;;;
       completed (roles_add d memberId) ;;;
       eval_ret true)
    (fun error => eval_ret false).

End Profile.

(** A claims payload with full first entries. *)
Definition full_fixture : JsVal :=
  JObj [("login", JStr "jdoe"); ("email", JStr "jdoe@student.42.fr");
        ("cursus_users",
         JArr [JObj [("level", JNum 7);
                     ("cursus", JObj [("name", JStr "42cursus")])]]);
        ("campus", JArr [JObj [("name", JStr "Paris")]])].

(** ** More about runs *)

Module Safety.

Import Server Run.

(** The state an event carries, if it is one that carries a state. *)
Definition event_state (e : Event) : option string :=
  match e with
  | GuildMemberAdd _ state _ => Some state
  | AuthCallback q | RulesAccept q | RulesDecline q => query_state q
  | CleanupTick _ => None
  end.

Definition is_sweep (e : Event) : bool :=
  match e with CleanupTick _ => true | _ => false end.

Definition is_join (e : Event) : bool :=
  match e with GuildMemberAdd _ _ _ => true | _ => false end.

(** Every record waiting for consent carries claims that
    [validateStudentStatus] accepted. *)
Definition vetted (reg : Registry) : Prop :=
  ∀ t v, reg !! t = Some v → step_is_not_rules_pending v = false →
         ∃ u, userData v = Some u ∧ Claims.verdict u = Normal true.

(** The record a join stores. *)
Definition fresh_record (member : Member) (now : Z) : Verification :=
  {| discordUserId := user_id member; discordUsername := user_tag member;
     timestamp := now; userData := None; step := None |}.

End Safety.

(** ** commands.js: manual verification *)

Module Commands.

(** What the two commands say with [interaction.editReply]. The embed of a
    successful verification carries the campus and the level as the values
    its fields are built from. *)
Inductive Reply : Type :=
| AlreadyVerified (tag : string)
| NotValidStudent
| VerifiedEmbed (tag : string) (campus level : JsVal) (executor : string)
| AddRoleFailed (tag : string)
| VerificationError (message : string)
| NotVerified (tag : string)
| UnverifiedEmbed (tag executor : string)
| RemoveRoleFailed (tag : string)
| UnverifyError (tag message : string).

Inductive CmdEffect : Type :=
| GuildMembersFetch (userId : string)
| DeferReply
| EditReply (reply : Reply)
| HttpGetUser (login : string)
| Bot (e : Effect)
| RolesRemove (userId : string)
| UserSend (userId : string).

Definition Cmd (A : Type) : Type := list CmdEffect * Completion A.

Definition cmd_ret {A} (a : A) : Cmd A := ([], Normal a).
Definition cmd_throw {A} (e : JsError) : Cmd A := ([], Throw e).

Definition cmd_bind {A B} (m : Cmd A) (k : A → Cmd B) : Cmd B :=
  match m with
  | (tr, Normal a) => let '(tr', c) := k a in (tr ++ tr', c)
  | (tr, Throw e) => (tr, Throw e)
  end.

Definition cmd_try {A} (body : Cmd A) (handler : JsError → Cmd A) : Cmd A :=
  match body with
  | (tr, Normal a) => (tr, Normal a)
  | (tr, Throw e) => let '(tr', c) := handler e in (tr ++ tr', c)
  end.

(** [await call], leaving [effect] in the trace. *)
Definition cmd_await {A} (effect : CmdEffect) (result : Completion A) : Cmd A :=
  ([effect], result).

(** Code of the other modules, run inside a command. *)
Definition bot {A} (m : Eval A) : Cmd A := (Bot <$> m.1, m.2).

Declare Scope cmd_scope.
Delimit Scope cmd_scope with cmd.
Notation "x <- m ;; k" := (cmd_bind m (fun x => k))
  (at level 100, m at next level, right associativity) : cmd_scope.
Notation "m ;;; k" := (cmd_bind m (fun _ => k))
  (at level 100, right associativity) : cmd_scope.

Local Open Scope cmd_scope.

(** [interaction]: the options of the command and who runs it. *)
Record Interaction := mkInteraction {
  target_id : string;
  target_tag : string;
  option_login : string;
  executor_tag : string
}.

(** What Discord and the provider answer during one command.
    [guild_members_fetch] resolves with whether the member has the 42 role
    in its role cache. *)
Record CommandWorld := {
  guild_members_fetch : string → Completion bool;
  defer_reply : Completion unit;
  edit_reply : Reply → Completion unit;
  axios_get_user : string → Completion JsVal;
  guild : Discord;
  roles_remove : string → Completion unit;
  user_send : string → Completion unit
}.

(** [getUserByLogin(login)] of fortytwo-api.js *)
Definition getUserByLogin (w : CommandWorld) (login : string) : Cmd JsVal :=
  cmd_try
    (data <- cmd_await (HttpGetUser login) (axios_get_user w login) ;;
     _ <- ([], get_prop data "login") ;;
     _ <- ([], get_prop data "displayname") ;;
     cmd_ret data)
    (fun error =>
       cmd_throw (Error ("Failed to get user by login: "
                         +:+ FortyTwoAPI.describe error))).

(** [remove42Role(member, roleId)] of utils.js *)
Definition remove42Role (w : CommandWorld) (memberId : string) : Cmd bool :=
  cmd_try
    (if negb (roles_cache_get (guild w)) then cmd_throw (Error "42 role not found")
     else
       cmd_await (RolesRemove memberId) (roles_remove w memberId) ;;;
       cmd_ret true)
    (fun error => cmd_ret false).

Definition has_own (props : list (string * JsVal)) (key : string) : bool :=
  existsb (fun p => String.eqb p.1 key) props.

(** Whether [v.toString()] throws: an object with a [toString] property of
    its own has one that is not a function, and an array joins the strings
    of its entries. *)
Fixpoint toString_throws (v : JsVal) : bool :=
  match v with
  | JObj props => has_own props "toString"
  | JArr items => existsb toString_throws items
  | _ => false
  end.

(** [level?.toString()]: only that it can throw is kept. *)
Definition optional_toString (level : JsVal) : Completion JsVal :=
  if toString_throws level
  then Throw (mkError "level.toString is not a function" None)
  else Normal level.

(** [handleVerifyCommand(interaction)]. A [return interaction.editReply(...)]
    inside the [try] hands the promise back without awaiting it, so its
    rejection is not caught by the [catch]. The builder of discord.js
    validates the fields of the success embed when they are added, and
    throws when a value is not a string of an accepted length: [addFields]
    is what it answers for the campus and the level. *)
Definition handleVerifyCommand (w : CommandWorld)
    (addFields : JsVal → JsVal → Completion unit) (i : Interaction) : Cmd unit :=
  hasRole <- cmd_await (GuildMembersFetch (target_id i))
               (guild_members_fetch w (target_id i)) ;;
  cmd_await DeferReply (defer_reply w) ;;;
  flow <-
    cmd_try
      ((* Check if user already has the role *)
       if hasRole then cmd_ret (Some (AlreadyVerified (target_tag i))) else
       (* Get user data from 42 API *)
       userData <- getUserByLogin w (option_login i) ;;
       (* Validate student status *)
       valid <- bot (FortyTwoAPI.validateStudentStatus userData) ;;
       if negb valid then cmd_ret (Some NotValidStudent) else
       (* Add the 42 role *)
       success <- bot (Profile.add42Role (guild w) (target_id i)) ;;
       if success then
         campus <- bot (Profile.getPrimaryCampus userData) ;;
         level <- bot (Profile.getCurrentLevel userData) ;;
         level <- ([], optional_toString level) ;;
         _ <- ([], addFields campus level) ;;
         cmd_await
           (EditReply (VerifiedEmbed (target_tag i) campus level (executor_tag i)))
           (edit_reply w
              (VerifiedEmbed (target_tag i) campus level (executor_tag i))) ;;;
         (* Notify the user *)
         cmd_try (cmd_await (UserSend (target_id i)) (user_send w (target_id i)))
           (fun dmError => cmd_ret tt) ;;;
         cmd_ret None
       else
         cmd_await (EditReply (AddRoleFailed (target_tag i)))
           (edit_reply w (AddRoleFailed (target_tag i))) ;;;
         cmd_ret None)
      (fun error =>
         cmd_await (EditReply (VerificationError (message error)))
           (edit_reply w (VerificationError (message error))) ;;;
         cmd_ret None) ;;
  match flow with
  | Some reply => cmd_await (EditReply reply) (edit_reply w reply)
  | None => cmd_ret tt
  end.

(** [handleUnverifyCommand(interaction)] *)
Definition handleUnverifyCommand (w : CommandWorld) (i : Interaction) : Cmd unit :=
  hasRole <- cmd_await (GuildMembersFetch (target_id i))
               (guild_members_fetch w (target_id i)) ;;
  cmd_await DeferReply (defer_reply w) ;;;
  flow <-
    cmd_try
      ((* Check if user has the role *)
       if negb hasRole then cmd_ret (Some (NotVerified (target_tag i))) else
       (* Remove the 42 role *)
       success <- remove42Role w (target_id i) ;;
       if success then
         cmd_await (EditReply (UnverifiedEmbed (target_tag i) (executor_tag i)))
           (edit_reply w (UnverifiedEmbed (target_tag i) (executor_tag i))) ;;;
         (* Notify the user *)
         cmd_try (cmd_await (UserSend (target_id i)) (user_send w (target_id i)))
           (fun dmError => cmd_ret tt) ;;;
         cmd_ret None
       else
         cmd_await (EditReply (RemoveRoleFailed (target_tag i)))
           (edit_reply w (RemoveRoleFailed (target_tag i))) ;;;
         cmd_ret None)
      (fun error =>
         cmd_await (EditReply (UnverifyError (target_tag i) (message error)))
           (edit_reply w (UnverifyError (target_tag i) (message error))) ;;;
         cmd_ret None) ;;
  match flow with
  | Some reply => cmd_await (EditReply reply) (edit_reply w reply)
  | None => cmd_ret tt
  end.

Definition is_role_add (e : CmdEffect) : bool :=
  match e with Bot (RolesAdd _) => true | _ => false end.

Definition is_role_remove (e : CmdEffect) : bool :=
  match e with RolesRemove _ => true | _ => false end.

Definition is_edit_reply (e : CmdEffect) : bool :=
  match e with EditReply _ => true | _ => false end.

Definition count (p : CmdEffect → bool) (tr : list CmdEffect) : nat :=
  length (List.filter p tr).

End Commands.

(** A command world in which everything succeeds and the provider returns
    [claims] for every login; the target does not have the role yet. *)
Definition command_world (claims : JsVal) : Commands.CommandWorld :=
  {| Commands.guild_members_fetch := fun _ => Normal false;
     Commands.defer_reply := Normal tt;
     Commands.edit_reply := fun _ => Normal tt;
     Commands.axios_get_user := fun _ => Normal claims;
     Commands.guild := discord (world_with claims);
     Commands.roles_remove := fun _ => Normal tt;
     Commands.user_send := fun _ => Normal tt |}.

Definition verify_interaction : Commands.Interaction :=
  Commands.mkInteraction "1001" "jdoe#0001" "jdoe" "admin#0001".

(** ** debug.js: masking what is logged *)

Module Debug.

Definition MASKED : string := "***MASKED***".

(** *** The replacement on strings

    [data.replace(pattern, '$1' + MASKED)] with the global, case-insensitive
    pattern: a [?] or [&], one of the words token, secret, password,
    authorization, a [=] (this much is group 1), then every character up to
    the next [&]. Without the [u] flag, [i] makes an ASCII letter of the
    pattern match that letter in either case and nothing else. *)

Definition lower_ascii (c : ascii) : ascii :=
  let n := N_of_ascii c in
  if ((65 <=? n) && (n <=? 90))%N then ascii_of_N (n + 32) else c.

(** [s] begins with [word], compared without case; [word] is in lower case. *)
Fixpoint prefix_ci (word s : string) : bool :=
  match word, s with
  | EmptyString, _ => true
  | String w word', String c s' => Ascii.eqb w (lower_ascii c) && prefix_ci word' s'
  | String _ _, EmptyString => false
  end.

Definition url_words : list string :=
  ["token"; "secret"; "password"; "authorization"].

(** The length of [word=] when [s] begins with one of the words and [=]. *)
Definition key_length (s : string) : option nat :=
  match List.find (fun word => prefix_ci (word +:+ "=") s) url_words with
  | Some word => Some (S (String.length word))
  | None => None
  end.

Definition is_delimiter (c : ascii) : bool :=
  Ascii.eqb c "?" || Ascii.eqb c "&".

(** Where the scan is: looking for a match, copying the [n] characters of a
    matched [word=], or skipping the value up to the next [&]. *)
Inductive Mode : Type :=
| Scan
| Copy (n : nat)
| Skip.

Fixpoint replace_from (mode : Mode) (s : string) : string :=
  match s with
  | EmptyString => EmptyString
  | String c rest =>
      let scan :=
        if is_delimiter c then
          match key_length rest with
          | Some n => String c (replace_from (Copy n) rest)
          | None => String c (replace_from Scan rest)
          end
        else String c (replace_from Scan rest) in
      match mode with
      | Scan => scan
      | Copy (S (S n)) => String c (replace_from (Copy (S n)) rest)
      | Copy _ => String c (MASKED +:+ replace_from Skip rest)
      | Skip => if Ascii.eqb c "&" then scan else replace_from Skip rest
      end
  end.

Definition mask_url (s : string) : string := replace_from Scan s.

(** *** What a masked string looks like *)

Fixpoint drop (n : nat) (s : string) : string :=
  match n, s with
  | S n', String _ s' => drop n' s'
  | _, _ => s
  end.

(** [s] without its prefix [p], when it begins with [p]. *)
Fixpoint strip (p s : string) : option string :=
  match p, s with
  | EmptyString, _ => Some s
  | String a p', String c s' => if Ascii.eqb a c then strip p' s' else None
  | String _ _, EmptyString => None
  end.

(** [s] is the mask, alone or followed by [&]. *)
Definition holds_mask (s : string) : bool :=
  match strip MASKED s with
  | Some EmptyString => true
  | Some (String c _) => Ascii.eqb c "&"
  | None => false
  end.

(** After every [?] or [&] that one of the words and [=] follow, the value
    up to the next [&] is the mask. *)
Fixpoint parameters_masked (s : string) : bool :=
  match s with
  | EmptyString => true
  | String c rest =>
      (if is_delimiter c
       then match key_length rest with
            | Some n => holds_mask (drop n rest)
            | None => true
            end
       else true)
      && parameters_masked rest
  end.

(** [s] from its first [&] on. *)
Fixpoint from_amp (s : string) : string :=
  match s with
  | EmptyString => EmptyString
  | String c rest => if Ascii.eqb c "&" then s else from_amp rest
  end.

(** No [?] and no [&] in [s]. *)
Fixpoint plain (s : string) : bool :=
  match s with
  | EmptyString => true
  | String c rest => negb (is_delimiter c) && plain rest
  end.

(** *** The replacement on objects and arrays *)

Section Masking.

(** [String.prototype.toLowerCase], which follows the Unicode case
    mappings, is left open here. *)
Variable toLowerCase : string → string.

(** [s.includes(sub)] *)
Fixpoint includes (s sub : string) : bool :=
  String.prefix sub s
  || match s with
     | String _ rest => includes rest sub
     | EmptyString => false
     end.

Definition default_sensitiveKeys : list string :=
  ["token"; "secret"; "password"; "authorization"].

(** [sensitiveKeys.some(sensitiveKey =>
      key.toLowerCase().includes(sensitiveKey.toLowerCase()))] *)
Definition is_sensitive (sensitiveKeys : list string) (key : string) : bool :=
  existsb (fun sensitiveKey => includes (toLowerCase key) (toLowerCase sensitiveKey))
    sensitiveKeys.

(** The key under which [Object.entries] lists the entry [i] of an array. *)
Definition index_key (i : nat) : string :=
  DecimalString.NilZero.string_of_uint (Nat.to_uint i).

(** [typeof value === 'object' && value !== null] *)
Definition is_object (value : JsVal) : bool :=
  match value with JObj _ | JArr _ => true | _ => false end.

(** [maskSensitiveData(data, sensitiveKeys)]. An assignment
    [masked['__proto__'] = ...] on a plain object reaches the setter of
    [Object.prototype] and creates no property, so such an entry is not in
    the result. *)
Fixpoint maskSensitiveData (sensitiveKeys : list string) (data : JsVal) : JsVal :=
  match data with
  | JStr s => JStr (mask_url s)
  | JObj props =>
      JObj ((fix entries (l : list (string * JsVal)) : list (string * JsVal) :=
               match l with
               | [] => []
               | (key, value) :: l' =>
                   if String.eqb key "__proto__" then entries l'
                   else
                     (key,
                      if is_sensitive sensitiveKeys key then JStr MASKED
                      else match value with
                           | JObj _ | JArr _ => maskSensitiveData sensitiveKeys value
                           | _ => value
                           end) :: entries l'
               end) props)
  | JArr items =>
      JArr ((fix entries (i : nat) (l : list JsVal) : list JsVal :=
               match l with
               | [] => []
               | value :: l' =>
                   (if is_sensitive sensitiveKeys (index_key i) then JStr MASKED
                    else match value with
                         | JObj _ | JArr _ => maskSensitiveData sensitiveKeys value
                         | _ => value
                         end) :: entries (S i) l'
               end) 0%nat items)
  | _ => data
  end.

(** What one entry becomes. *)
Definition mask_value (sensitiveKeys : list string) (key : string)
    (value : JsVal) : JsVal :=
  if is_sensitive sensitiveKeys key then JStr MASKED
  else if is_object value then maskSensitiveData sensitiveKeys value
  else value.

Fixpoint mask_props (sensitiveKeys : list string) (l : list (string * JsVal))
    : list (string * JsVal) :=
  match l with
  | [] => []
  | (key, value) :: l' =>
      if String.eqb key "__proto__" then mask_props sensitiveKeys l'
      else (key, mask_value sensitiveKeys key value) :: mask_props sensitiveKeys l'
  end.

Fixpoint mask_items (sensitiveKeys : list string) (i : nat) (l : list JsVal)
    : list JsVal :=
  match l with
  | [] => []
  | value :: l' =>
      mask_value sensitiveKeys (index_key i) value
      :: mask_items sensitiveKeys (S i) l'
  end.

(** Every property named by a sensitive key, at any depth, holds the mask. *)
Fixpoint all_masked (sensitiveKeys : list string) (v : JsVal) : bool :=
  match v with
  | JObj props =>
      (fix entries (l : list (string * JsVal)) : bool :=
         match l with
         | [] => true
         | (key, value) :: l' =>
             (if is_sensitive sensitiveKeys key
              then match value with
                   | JStr s => String.eqb s MASKED
                   | _ => false
                   end
              else all_masked sensitiveKeys value)
             && entries l'
         end) props
  | JArr items =>
      (fix entries (i : nat) (l : list JsVal) : bool :=
         match l with
         | [] => true
         | value :: l' =>
             (if is_sensitive sensitiveKeys (index_key i)
              then match value with
                   | JStr s => String.eqb s MASKED
                   | _ => false
                   end
              else all_masked sensitiveKeys value)
             && entries (S i) l'
         end) 0%nat items
  | _ => true
  end.

End Masking.

(** ASCII lower case, which is what [toLowerCase] does on ASCII text. *)
Fixpoint ascii_lower (s : string) : string :=
  match s with
  | EmptyString => EmptyString
  | String c rest => String (lower_ascii c) (ascii_lower rest)
  end.

End Debug.

(** The body of the token request as [exchangeCodeForToken] logs it. *)
Definition logged_request : JsVal :=
  JObj [("url", JStr "https://api.intra.42.fr/oauth/token?token=abc");
        ("body", JObj [("grant_type", JStr "authorization_code");
                       ("client_secret", JStr "s3cr3t");
                       ("code", JStr "abc")]);
        ("headers", JObj [("Authorization", JStr "Bearer xyz")])].


(** ** Properties of the eligibility predicate *)

Section Eligibility.

Import FortyTwoAPI Claims.

Lemma get_prop_truthy (v : JsVal) (k : string) :
  to_boolean v = true → get_prop v k = Normal (read v k).
Proof. unfold read. destruct v; simpl; intros H; try discriminate; reflexivity. Qed.

Lemma falsy_prop_truthy (u : JsVal) (k : string) :
  to_boolean u = true →
  falsy_prop u k = ([], Normal (negb (to_boolean (read u k)))).
Proof. intros H. unfold falsy_prop. rewrite (get_prop_truthy _ _ H). reflexivity. Qed.

Lemma missing_or_empty_truthy (u : JsVal) (k : string) :
  to_boolean u = true →
  missing_or_empty u k = ([], Normal (negb (has_entries (read u k)))).
Proof.
  intros H. unfold missing_or_empty, has_entries.
  rewrite (get_prop_truthy _ _ H). simpl.
  destruct (to_boolean (read u k)) eqn:E; simpl; [|reflexivity].
  rewrite (get_prop_truthy _ _ E). simpl. by rewrite negb_involutive.
Qed.

Lemma validateStudentStatus_closed (u : JsVal) :
  validateStudentStatus u
  = if eligible u
    then if warning_fails u then ([], Throw ConversionError)
         else (pool_warning u, Normal true)
    else ([], Normal false).
Proof.
  unfold validateStudentStatus, eligible, pool_warning, warning_fails, or_else,
    to_string.
  destruct (to_boolean u) eqn:Hu; simpl; [|reflexivity].
  rewrite !(falsy_prop_truthy _ _ Hu), !(missing_or_empty_truthy _ _ Hu),
    !(get_prop_truthy _ _ Hu). simpl.
  destruct (to_boolean (read u "login")); simpl; [|reflexivity].
  destruct (to_boolean (read u "email")); simpl; [|reflexivity].
  destruct (to_boolean (read u "staff?")); simpl; [reflexivity|].
  destruct (has_entries (read u "cursus_users")); simpl; [|reflexivity].
  destruct (has_entries (read u "campus")); simpl; [|reflexivity].
  destruct (strict_eq_false (read u "active?")); simpl; [reflexivity|].
  destruct (to_boolean (read u "pool_year")); simpl; [reflexivity|].
  destruct (to_boolean (read u "pool_month")); simpl; [reflexivity|].
  destruct (to_string_throws (read u "login")); reflexivity.
Qed.

Lemma verdict_closed (u : JsVal) :
  verdict u
  = if eligible u && warning_fails u then Throw ConversionError
    else Normal (eligible u).
Proof.
  unfold verdict. rewrite validateStudentStatus_closed.
  destruct (eligible u); [|reflexivity]. by destruct (warning_fails u).
Qed.

Lemma verdict_true (u : JsVal) :
  verdict u = Normal true → eligible u = true ∧ warning_fails u = false.
Proof.
  rewrite verdict_closed. destruct (eligible u); [|discriminate].
  by destruct (warning_fails u).
Qed.

Lemma verdict_false (u : JsVal) : eligible u = false → verdict u = Normal false.
Proof. intros H. rewrite verdict_closed. by rewrite H. Qed.

Lemma verdict_false_inv (u : JsVal) :
  verdict u = Normal false → eligible u = false.
Proof.
  rewrite verdict_closed. destruct (eligible u); [|done].
  by destruct (warning_fails u).
Qed.

End Eligibility.

Section EligibilityClaims.

Import FortyTwoAPI Claims.

Lemma absent_not_eligible (u : JsVal) : absent u = true → to_boolean u = false.
Proof. destruct u; simpl; congruence. Qed.

Lemma lacks_falsy (u : JsVal) (k : string) :
  lacks u k = true → to_boolean (read u k) = false.
Proof.
  unfold lacks. destruct (read u k); simpl; try congruence.
  intros ->. reflexivity.
Qed.



Lemma no_entries_has_none (u : JsVal) (k : string) :
  no_entries u k = true → has_entries (read u k) = false.
Proof.
  unfold no_entries. destruct (read u k) as [| | | | |items|]; try congruence;
    try reflexivity.
  destruct items; [reflexivity | congruence].
Qed.


Lemma fails_not_eligible (u : JsVal) :
  fails_a_condition u = true → eligible u = false.
Proof.
  unfold fails_a_condition, eligible. rewrite !orb_true_iff.
  intros [[[[[[H|H]|H]|H]|H]|H]|H].
  - by rewrite (absent_not_eligible _ H).
  - rewrite (lacks_falsy _ _ H). by rewrite !andb_false_r.
  - rewrite (lacks_falsy _ _ H). by rewrite !andb_false_r.
  - unfold flagged_staff in H.
    destruct (read u "staff?") as [| |[|]| | | |]; try congruence.
    simpl. by rewrite !andb_false_r.
  - rewrite (no_entries_has_none _ _ H). by rewrite !andb_false_r.
  - rewrite (no_entries_has_none _ _ H). by rewrite !andb_false_r.
  - unfold flagged_inactive in H.
    destruct (read u "active?") as [| |[|]| | | |]; try congruence.
    simpl. by rewrite !andb_false_r.
Qed.




Lemma validateStudentStatus_unrenderable :
  eligible unrenderable_fixture = true
  ∧ validateStudentStatus unrenderable_fixture = ([], Throw ConversionError).
Proof. split; reflexivity. Qed.




(** *** Independence of the pool fields *)















End EligibilityClaims.

(** ** Properties of the sweep *)

Section Sweep.

Import Utils.

Variables now maxAge : Z.

Lemma cleanup_entry_absent (acc : Registry * nat) (entry : string * Verification)
    (k : string) :
  acc.1 !! k = None → (cleanup_entry now maxAge acc entry).1 !! k = None.
Proof.
  intros H. unfold cleanup_entry. destruct (expired now maxAge entry.2); [|done].
  simpl. destruct (decide (entry.1 = k)) as [->|Hne].
  - apply lookup_delete_eq.
  - by rewrite lookup_delete_ne.
Qed.

Lemma cleanup_fold_absent (l : list (string * Verification))
    (acc : Registry * nat) (k : string) :
  acc.1 !! k = None → (foldl (cleanup_entry now maxAge) acc l).1 !! k = None.
Proof.
  revert acc. induction l as [|entry l IH]; intros acc H; [done|].
  simpl. apply IH. by apply cleanup_entry_absent.
Qed.

Lemma cleanup_fold_expired (l : list (string * Verification))
    (acc : Registry * nat) (k : string) (v : Verification) :
  (k, v) ∈ l → expired now maxAge v = true →
  (foldl (cleanup_entry now maxAge) acc l).1 !! k = None.
Proof.
  revert acc. induction l as [|entry l IH]; intros acc Hin Hexp.
  - by apply elem_of_nil in Hin.
  - simpl. apply elem_of_cons in Hin as [<-|Hin]; [|by apply IH].
    apply cleanup_fold_absent. unfold cleanup_entry. simpl. rewrite Hexp.
    apply lookup_delete_eq.
Qed.

Lemma cleanup_fold_kept (l : list (string * Verification))
    (acc : Registry * nat) (k : string) :
  (∀ v, (k, v) ∈ l → expired now maxAge v = false) →
  (foldl (cleanup_entry now maxAge) acc l).1 !! k = acc.1 !! k.
Proof.
  revert acc. induction l as [|[k0 v0] l IH]; intros acc H; [done|].
  simpl. rewrite IH.
  - unfold cleanup_entry. simpl. destruct (expired now maxAge v0) eqn:E; [|done].
    simpl. apply lookup_delete_ne. intros ->.
    rewrite (H v0) in E; [done | apply elem_of_cons; by left].
  - intros v Hin. apply H. apply elem_of_cons. by right.
Qed.

End Sweep.

Section SweepClaims.

Import Utils.

Lemma cleanup_removes (now : Z) (reg : Registry) (maxAge : option Z)
    (t : string) (v : Verification) :
  reg !! t = Some v →
  now - timestamp v > default default_maxAge maxAge →
  (cleanupExpiredVerifications now reg maxAge).1 !! t = None.
Proof.
  intros Hv Hold. unfold cleanupExpiredVerifications, cleanup_loop. simpl.
  apply (cleanup_fold_expired _ _ _ _ _ v).
  - by apply elem_of_map_to_list.
  - unfold expired. by apply bool_decide_eq_true.
Qed.

Lemma cleanup_keeps (now : Z) (reg : Registry) (maxAge : option Z)
    (t : string) (v : Verification) :
  reg !! t = Some v →
  now - timestamp v ≤ default default_maxAge maxAge →
  (cleanupExpiredVerifications now reg maxAge).1 !! t = Some v.
Proof.
  intros Hv Hyoung. unfold cleanupExpiredVerifications, cleanup_loop. simpl.
  rewrite cleanup_fold_kept; [done|].
  intros v' Hin. apply elem_of_map_to_list in Hin.
  assert (v' = v) as -> by congruence.
  unfold expired. apply bool_decide_eq_false. lia.
Qed.

Lemma cleanup_absent (now : Z) (reg : Registry) (maxAge : option Z) (t : string) :
  reg !! t = None → (cleanupExpiredVerifications now reg maxAge).1 !! t = None.
Proof.
  intros H. unfold cleanupExpiredVerifications, cleanup_loop. simpl.
  by apply cleanup_fold_absent.
Qed.

(** C7. The sweep removes every record whose timestamp is older than
    [maxAge] (ten minutes when the argument is omitted); so a record created
    at [T] survives a sweep that runs at [T + maxAge - eps] and is gone after
    a sweep that runs at [T + maxAge + eps]. *)
Theorem cleanupExpiredVerifications_removes_expired
    (reg : Registry) (maxAge : option Z) (t : string) (v : Verification) :
  reg !! t = Some v →
  default default_maxAge None = 600000
  ∧ (∀ now, now - timestamp v > default default_maxAge maxAge →
       (cleanupExpiredVerifications now reg maxAge).1 !! t = None)
  ∧ (∀ eps, 0 < eps →
       (cleanupExpiredVerifications
          (timestamp v + default default_maxAge maxAge - eps) reg maxAge).1 !! t
       = Some v
       ∧ (cleanupExpiredVerifications
          (timestamp v + default default_maxAge maxAge + eps) reg maxAge).1 !! t
         = None).
Proof.
  intros Hv. split; [reflexivity|]. split.
  - intros now Hold. by eapply cleanup_removes.
  - intros eps Heps. split.
    + apply cleanup_keeps; [done | lia].
    + eapply cleanup_removes; [done | lia].
Qed.

Lemma cleanupExpiredVerifications_removes_expired_witness :
  (Utils.cleanupExpiredVerifications (1700000000000 + 600000 - 1)
     registry_pending None).1 !! token = Some pending
  ∧ (Utils.cleanupExpiredVerifications (1700000000000 + 600000 + 1)
       registry_pending None).1 !! token = None.
Proof.
  exact (proj2 (proj2 (cleanupExpiredVerifications_removes_expired
                         registry_pending None token pending eq_refl))
           1 ltac:(lia)).
Defined.

(** C9. The sweep leaves every record that has not expired as it was: a
    record whose age is at most [maxAge] is still in the registry, unchanged,
    after the sweep; this includes the age [maxAge] itself. *)
Theorem cleanupExpiredVerifications_keeps_live
    (now : Z) (reg : Registry) (maxAge : option Z) (t : string) (v : Verification) :
  reg !! t = Some v →
  now - timestamp v ≤ default default_maxAge maxAge →
  (cleanupExpiredVerifications now reg maxAge).1 !! t = Some v
  ∧ (cleanupExpiredVerifications
       (timestamp v + default default_maxAge maxAge) reg maxAge).1 !! t = Some v.
Proof.
  intros Hv Hyoung. split; apply cleanup_keeps; auto; lia.
Qed.

Lemma cleanupExpiredVerifications_keeps_live_witness :
  (Utils.cleanupExpiredVerifications (1700000000000 + 600000)
     registry_pending None).1 !! token = Some pending.
Proof.
  exact (proj1 (cleanupExpiredVerifications_keeps_live
                  (1700000000000 + 600000) registry_pending None token pending
                  eq_refl ltac:(unfold pending, default_maxAge; simpl; lia))).
Defined.

End SweepClaims.

(** ** Properties of the identity-provider client *)

Section Provider.

Import FortyTwoAPI Claims.

Lemma get_prop_present (v : JsVal) (k : string) :
  absent v = false → get_prop v k = Normal (read v k).
Proof. unfold read. by destruct v. Qed.

Lemma get_prop_normal (v w : JsVal) (k : string) :
  get_prop v k = Normal w → absent v = false.
Proof. by destruct v. Qed.

Lemma exchange_trace (ax : Axios) (code : string) :
  (exchangeCodeForToken ax code).1 = [HttpPostToken code].
Proof.
  unfold exchangeCodeForToken. simpl.
  destruct (axios_post ax code) as [data|e]; simpl; [|reflexivity].
  destruct (get_prop data "access_token"); reflexivity.
Qed.

Lemma exchange_normal (ax : Axios) (code : string) (data : JsVal) :
  (exchangeCodeForToken ax code).2 = Normal data →
  axios_post ax code = Normal data ∧ absent data = false.
Proof.
  unfold exchangeCodeForToken. simpl.
  destruct (axios_post ax code) as [d|e]; simpl; [|discriminate].
  destruct (get_prop d "access_token") eqn:E; simpl; [|discriminate].
  intros [= ->]. split; [reflexivity | by eapply get_prop_normal].
Qed.

Lemma exchange_throw (ax : Axios) (code : string) (e : JsError) :
  (exchangeCodeForToken ax code).2 = Throw e →
  ∃ d, e = Error ("Failed to exchange code for token: " +:+ d).
Proof.
  unfold exchangeCodeForToken. simpl.
  destruct (axios_post ax code) as [d|e']; simpl.
  - destruct (get_prop d "access_token") eqn:E; simpl; [discriminate|].
    intros [= <-]. eauto.
  - intros [= <-]. eauto.
Qed.

Lemma getUserInfo_trace (ax : Axios) (tok : JsVal) :
  (getUserInfo ax tok).1
  = if to_string_throws tok then [] else [HttpGetMe tok].
Proof.
  unfold getUserInfo, to_string. destruct (to_string_throws tok); [reflexivity|].
  simpl. destruct (axios_get ax tok) as [data|e]; simpl; [|reflexivity].
  destruct (get_prop data "login"); simpl; [|reflexivity].
  destruct (get_prop data "displayname"); reflexivity.
Qed.

Lemma getUserInfo_normal (ax : Axios) (tok u : JsVal) :
  (getUserInfo ax tok).2 = Normal u →
  axios_get ax tok = Normal u ∧ absent u = false.
Proof.
  unfold getUserInfo, to_string. destruct (to_string_throws tok); [discriminate|].
  simpl. destruct (axios_get ax tok) as [d|e]; simpl; [|discriminate].
  destruct (get_prop d "login") eqn:E; simpl; [|discriminate].
  destruct (get_prop d "displayname"); simpl; [|discriminate].
  intros [= ->]. split; [reflexivity | by eapply get_prop_normal].
Qed.

Lemma getUserInfo_renders (ax : Axios) (tok u : JsVal) :
  (getUserInfo ax tok).2 = Normal u → to_string_throws tok = false.
Proof.
  unfold getUserInfo, to_string. by destruct (to_string_throws tok).
Qed.

Lemma getUserInfo_throw (ax : Axios) (tok : JsVal) (e : JsError) :
  (getUserInfo ax tok).2 = Throw e →
  ∃ d, e = Error ("Failed to get user info: " +:+ d).
Proof.
  unfold getUserInfo, to_string.
  destruct (to_string_throws tok); [intros [= <-]; eauto|].
  simpl. destruct (axios_get ax tok) as [d|e']; simpl.
  - destruct (get_prop d "login"); simpl; [|intros [= <-]; eauto].
    destruct (get_prop d "displayname"); simpl; [discriminate|].
    intros [= <-]; eauto.
  - intros [= <-]. eauto.
Qed.

Lemma validate_trace (u : JsVal) :
  (validateStudentStatus u).1 = [] ∨
  (validateStudentStatus u).1 = [ConsoleWarnNoPool (read u "login")].
Proof.
  rewrite validateStudentStatus_closed. unfold pool_warning.
  destruct (eligible u); [|by left].
  destruct (warning_fails u); [by left|]. simpl.
  destruct (_ && _); [by right | by left].
Qed.

End Provider.

(** ** The identity callback *)

Section Callback.

Import Server Run Claims FortyTwoAPI.

Lemma harmless_grant_calls (pre l : list Effect) :
  forallb harmless pre = true → grant_calls (pre ++ l) = grant_calls l.
Proof.
  unfold grant_calls. induction pre as [|e pre IH]; [done|].
  simpl. intros H. apply andb_true_iff in H as [He Hpre].
  destruct e; simpl in *; try discriminate; auto.
Qed.

Lemma harmless_consent_writes (t : string) (pre l : list Effect) :
  forallb harmless pre = true →
  List.filter (consent_write t) (pre ++ l) = List.filter (consent_write t) l.
Proof.
  induction pre as [|e pre IH]; [done|].
  simpl. intros H. apply andb_true_iff in H as [He Hpre].
  destruct e; simpl in *; try discriminate; auto.
Qed.

Lemma auth_callback_live (w : World) (code t : string) (err : option string)
    (reg : Registry) (v : Verification) :
  truthy err = false → code ≠ "" → t ≠ "" → reg !! t = Some v →
  callback_post w code t reg v
    (auth_callback w (mkQuery (Some code) (Some t) err) reg).
Proof.
  intros Herr Hc Ht Hv.
  apply String.eqb_neq in Hc, Ht.
  unfold callback_post, auth_callback. simpl. rewrite Herr, Hc, Ht. simpl.
  unfold try_catch, bind, lift, completed, await, throw, ret, map_get, map_set,
    map_delete. simpl. rewrite Hv.
  pose proof (exchange_trace (axios w) code) as Htr1.
  pose proof (exchange_normal (axios w) code) as Hn1.
  destruct (exchangeCodeForToken (axios w) code) as [tr1 [tokenResponse|e1]];
    simpl in *; subst tr1.
  2:{ repeat split. by exists [HttpPostToken code]. }
  destruct (Hn1 _ eq_refl) as [_ Hp1].
  rewrite (get_prop_present _ _ Hp1). simpl.
  pose proof (getUserInfo_trace (axios w) (read tokenResponse "access_token")) as Htr2.
  pose proof (getUserInfo_normal (axios w) (read tokenResponse "access_token")) as Hn2.
  pose proof (getUserInfo_renders (axios w) (read tokenResponse "access_token")) as Hr2.
  destruct (getUserInfo (axios w) (read tokenResponse "access_token"))
    as [tr2 [u|e2]]; simpl in *; subst tr2.
  2:{ repeat split.
      destruct (to_string_throws (read tokenResponse "access_token"));
        [by eexists [_] | by eexists [_; _]]. }
  destruct (Hn2 _ eq_refl) as [_ Hp2]. rewrite (Hr2 _ eq_refl).
  rewrite !(get_prop_present _ _ Hp2). simpl.
  pose proof (validate_trace u) as Htr3.
  rewrite validateStudentStatus_closed in *.
  destruct (eligible u); simpl.
  2:{ repeat split. by eexists [_; _]. }
  destruct (warning_fails u); simpl.
  { repeat split. by eexists [_; _]. }
  simpl in Htr3.
  assert (forallb harmless (pool_warning u) = true) as Hw.
  { destruct Htr3 as [-> | ->]; reflexivity. }
  destruct (guilds_cache_get (discord w)); simpl.
  2:{ repeat split.
      exists (HttpPostToken code :: HttpGetMe (read tokenResponse "access_token")
              :: pool_warning u).
      simpl. by rewrite app_nil_r, Hw. }
  assert (∀ x, ∃ pre,
            HttpPostToken code :: HttpGetMe (read tokenResponse "access_token")
              :: pool_warning u ++ [MembersFetch (discordUserId v); x]
            = pre ++ [x] ∧ forallb harmless pre = true) as Hpre.
  { intros x.
    exists (HttpPostToken code :: HttpGetMe (read tokenResponse "access_token")
            :: pool_warning u ++ [MembersFetch (discordUserId v)]).
    simpl. rewrite <- app_assoc, forallb_app, Hw. done. }
  destruct (members_fetch (discord w) (discordUserId v)) as [[|]|e3]; simpl;
    repeat split; rewrite <- ?app_assoc; apply Hpre.
Qed.

End Callback.

Section CallbackClaims.

Import Server Run Claims FortyTwoAPI.

Lemma callback_failed_no_grant (o : Outcome Page) (t : string) (reg : Registry)
    (msg : string) :
  callback_failed o t reg msg → grant_calls (trace o) = 0%nat.
Proof.
  intros (_ & _ & pre & -> & Hpre). by rewrite harmless_grant_calls.
Qed.

Lemma callback_confirmed_no_grant (o : Outcome Page) (t : string) (reg : Registry)
    (v : Verification) (u : JsVal) :
  callback_confirmed o t reg v u → grant_calls (trace o) = 0%nat.
Proof.
  intros (_ & _ & pre & -> & Hpre). by rewrite harmless_grant_calls.
Qed.

Lemma callback_post_no_grant (w : World) (code t : string) (reg : Registry)
    (v : Verification) (o : Outcome Page) :
  callback_post w code t reg v o → grant_calls (trace o) = 0%nat.
Proof.
  unfold callback_post.
  repeat match goal with
         | |- context [match ?x with _ => _ end] => destruct x
         end;
    eauto using callback_failed_no_grant, callback_confirmed_no_grant.
Qed.

(** Whatever the request and the registry, the identity callback returns a
    page and its effects contain no grant. *)
Lemma auth_callback_never_grants (w : World) (q : Query) (reg : Registry) :
  grant_calls (trace (auth_callback w q reg)) = 0%nat
  ∧ ∃ page, completion (auth_callback w q reg) = Normal page.
Proof.
  destruct q as [code state err].
  destruct (truthy err) eqn:Herr.
  { unfold auth_callback. simpl. rewrite Herr. simpl. eauto. }
  destruct code as [code|]; [|unfold auth_callback; simpl; rewrite Herr; simpl; eauto].
  destruct state as [t|].
  2:{ unfold auth_callback; simpl; rewrite Herr; simpl.
      rewrite orb_true_r. simpl. eauto. }
  destruct (String.eqb code "") eqn:Hc.
  { unfold auth_callback; simpl; rewrite Herr, Hc; simpl; eauto. }
  destruct (String.eqb t "") eqn:Ht.
  { unfold auth_callback; simpl; rewrite Herr, Hc, Ht; simpl; eauto. }
  destruct (reg !! t) as [v|] eqn:Hv.
  - apply String.eqb_neq in Hc, Ht.
    pose proof (auth_callback_live w code t err reg v Herr Hc Ht Hv) as Hpost.
    split; [by eapply callback_post_no_grant|].
    revert Hpost. unfold callback_post.
    repeat match goal with
           | |- context [match ?x with _ => _ end] => destruct x
           end;
      intros (_ & -> & _); eauto.
  - unfold auth_callback; simpl; rewrite Herr, Hc, Ht; simpl.
    unfold bind, map_get, ret. simpl. rewrite Hv. simpl. eauto.
Qed.

(** The callback leaves the registry alone before it has found a record. *)
Lemma auth_callback_no_record (w : World) (q : Query) (reg : Registry) :
  (truthy (query_error q) = true
   ∨ truthy (query_code q) = false
   ∨ truthy (query_state q) = false
   ∨ reg !! default "" (query_state q) = None) →
  ∃ page, auth_callback w q reg = mkOutcome reg [] (Normal page).
Proof.
  intros H. unfold auth_callback.
  destruct (truthy (query_error q)) eqn:Herr; [unfold ret; eauto|].
  destruct (truthy (query_code q)) eqn:Hc; simpl; [|unfold ret; eauto].
  destruct (truthy (query_state q)) eqn:Ht; simpl; [|unfold ret; eauto].
  destruct H as [H|[H|[H|H]]]; try discriminate.
  unfold bind, map_get, ret. simpl. rewrite H. eauto.
Qed.

End CallbackClaims.

Section IdentityFailure.

Import Server Run Claims FortyTwoAPI.

(** C6. On a callback for a live record: when the code exchange fails, or
    the claims fetch fails, or the claims are not eligible, the record is
    deleted, the failure page is sent and no grant is made; in particular
    when the claims are flagged staff. *)
Theorem auth_callback_failure_deletes (w : World) (q : Query) (reg : Registry)
    (code t : string) (v : Verification) :
  truthy (query_error q) = false →
  query_code q = Some code → code ≠ "" →
  query_state q = Some t → t ≠ "" →
  reg !! t = Some v →
  (∀ e, (exchangeCodeForToken (axios w) code).2 = Throw e →
     rejected (auth_callback w q reg) t reg (message e))
  ∧ (∀ tokenResponse,
       (exchangeCodeForToken (axios w) code).2 = Normal tokenResponse →
       (∀ e, (getUserInfo (axios w) (read tokenResponse "access_token")).2 = Throw e →
          rejected (auth_callback w q reg) t reg (message e))
       ∧ (∀ u, (getUserInfo (axios w) (read tokenResponse "access_token")).2 = Normal u →
            (verdict u = Normal false ∨ flagged_staff u = true) →
            rejected (auth_callback w q reg) t reg
              "User is not a valid 42 student or is staff")).
Proof.
  intros Herr Hcode Hc Hstate Ht Hv. destruct q as [qc qs qe]. simpl in *. subst.
  pose proof (auth_callback_live w code t qe reg v Herr Hc Ht Hv) as Hpost.
  pose proof (callback_post_no_grant _ _ _ _ _ _ Hpost) as Hng.
  unfold callback_post in Hpost. unfold rejected. split.
  - intros e He. rewrite He in Hpost. destruct Hpost as (? & ? & _). auto.
  - intros tokenResponse Hex. rewrite Hex in Hpost. split.
    + intros e He. rewrite He in Hpost. destruct Hpost as (? & ? & _). auto.
    + intros u Hu Hbad. rewrite Hu in Hpost.
      assert (verdict u = Normal false) as Hverdict.
      { destruct Hbad as [H|H]; [done|]. apply verdict_false.
        apply fails_not_eligible.
        unfold fails_a_condition. rewrite H. by rewrite !orb_true_r. }
      unfold verdict in Hverdict. rewrite Hverdict in Hpost.
      destruct Hpost as (? & ? & _). auto.
Qed.

Lemma auth_callback_failure_deletes_witness :
  rejected (auth_callback (world_with staff_fixture) callback_query registry_pending)
    token registry_pending "User is not a valid 42 student or is staff".
Proof.
  refine (proj2 (proj2 (auth_callback_failure_deletes (world_with staff_fixture)
            callback_query registry_pending "abc" token pending
            _ _ _ _ _ _) (JObj [("access_token", JStr "at-1")]) _)
          staff_fixture _ _).
  - reflexivity.
  - reflexivity.
  - discriminate.
  - reflexivity.
  - discriminate.
  - reflexivity.
  - reflexivity.
  - reflexivity.
  - right. reflexivity.
Defined.

End IdentityFailure.

(** ** The consent handlers *)

Section Consent.

Import Server Run Claims FortyTwoAPI.

Lemma consent_pending_reads (v : Verification) (k : string) :
  consent_pending v →
  step_is_not_rules_pending v = false
  ∧ ∃ x, userData_prop v k = Normal x.
Proof.
  intros [Hstep (u & Hu & Htruthy)]. split.
  - unfold step_is_not_rules_pending. by rewrite Hstep.
  - unfold userData_prop. rewrite Hu. simpl.
    rewrite (get_prop_truthy _ _ Htruthy). eauto.
Qed.

Lemma grant_failure_message_distinct (m msg : string) :
  identity_failure_message msg → "Failed to assign role: " +:+ m ≠ msg.
Proof.
  intros [(ax & code & e & He & ->)|[(ax & tok & e & He & ->)| ->]].
  - apply exchange_throw in He as [d ->]. unfold Error. simpl. discriminate.
  - apply getUserInfo_throw in He as [d ->]. unfold Error. simpl. discriminate.
  - simpl. discriminate.
Qed.

(** C5. For a record waiting for consent, the accept handler always ends
    with the record gone and a page sent. When the grant is reached and
    fails, the page is the failure page with the role-assignment message,
    which no identity failure produces; when it succeeds, the effects are the
    member lookup, the grant, the success notification and then the
    deletion, whether or not the notification is delivered. *)
Theorem rules_accept_consumes (w : World) (q : Query) (reg : Registry)
    (t : string) (v : Verification) :
  query_state q = Some t → t ≠ "" →
  reg !! t = Some v → consent_pending v →
  registry (rules_accept w q reg) = delete t reg
  ∧ registry (rules_accept w q reg) !! t = None
  ∧ (∃ page, completion (rules_accept w q reg) = Normal page)
  ∧ (guilds_cache_get (discord w) = true →
     members_fetch (discord w) (discordUserId v) = Normal true →
     roles_cache_get (discord w) = true →
     bot_member_cached (discord w) = true →
     (∀ e, roles_add (discord w) (discordUserId v) = Throw e →
        completion (rules_accept w q reg)
        = Normal (VerificationErrorPage ("Failed to assign role: " +:+ message e))
        ∧ ∀ msg, identity_failure_message msg →
            VerificationErrorPage ("Failed to assign role: " +:+ message e)
            ≠ VerificationErrorPage msg)
     ∧ (roles_add (discord w) (discordUserId v) = Normal tt →
        completion (rules_accept w q reg) = Normal SuccessPage
        ∧ trace (rules_accept w q reg)
          = [MembersFetch (discordUserId v); RolesAdd (discordUserId v);
             MemberSend (discordUserId v); MapDelete t])).
Proof.
  intros Hstate Ht Hv Hpending. destruct q as [qc qs qe]. simpl in *. subst.
  apply String.eqb_neq in Ht.
  destruct (consent_pending_reads v "login" Hpending) as [Hstep [x1 Hx1]].
  destruct (consent_pending_reads v "displayname" Hpending) as [_ [x2 Hx2]].
  unfold rules_accept. simpl. rewrite Ht. simpl.
  unfold try_catch, bind, lift, completed, await, throw, ret, map_get, map_delete.
  simpl. rewrite Hv, Hstep, Hx1, Hx2. simpl.
  assert (delete t reg !! t = None) as Hgone by apply lookup_delete_eq.
  destruct (guilds_cache_get (discord w)); simpl.
  2:{ repeat split; eauto; discriminate. }
  destruct (members_fetch (discord w) (discordUserId v)) as [[|]|e1]; simpl.
  2,3: repeat split; eauto; discriminate.
  destruct (roles_cache_get (discord w)); simpl.
  2:{ repeat split; eauto; discriminate. }
  destruct (bot_member_cached (discord w)); simpl.
  2:{ repeat split; eauto; discriminate. }
  destruct (roles_add (discord w) (discordUserId v)) as [[]|e2]; simpl.
  - destruct (member_send (discord w) (discordUserId v)) as [[]|e3]; simpl;
      repeat split; eauto; discriminate.
  - repeat split; eauto; try discriminate.
    + congruence.
    + intros msg Hmsg [= Heq].
      by apply (grant_failure_message_distinct (message e) msg).
Qed.

Lemma rules_accept_consumes_witness :
  registry (rules_accept world_misconfigured consent_query registry_consenting)
    !! token = None
  ∧ completion (rules_accept world_misconfigured consent_query registry_consenting)
    = Normal (VerificationErrorPage "Failed to assign role: Missing Permissions")
  ∧ completion (rules_accept (world_with fixture) consent_query registry_consenting)
    = Normal SuccessPage.
Proof.
  assert (consent_pending consenting) as Hp.
  { split; [reflexivity|]. exists fixture. split; reflexivity. }
  pose proof (rules_accept_consumes world_misconfigured consent_query
                registry_consenting token consenting eq_refl
                ltac:(discriminate) eq_refl Hp) as (_ & Hgone & _ & Hgrant).
  pose proof (rules_accept_consumes (world_with fixture) consent_query
                registry_consenting token consenting eq_refl
                ltac:(discriminate) eq_refl Hp) as (_ & _ & _ & Hok).
  split; [exact Hgone|]. split.
  - exact (proj1 (proj1 (Hgrant eq_refl eq_refl eq_refl eq_refl)
                    (Error "Missing Permissions") eq_refl)).
  - exact (proj1 (proj2 (Hok eq_refl eq_refl eq_refl eq_refl) eq_refl)).
Defined.

(** The accept handler leaves the registry alone when it finds no record
    waiting for consent. *)
Lemma rules_accept_no_record (w : World) (q : Query) (reg : Registry) :
  (truthy (query_state q) = false
   ∨ reg !! default "" (query_state q) = None
   ∨ ∃ v, reg !! default "" (query_state q) = Some v
          ∧ step_is_not_rules_pending v = true) →
  ∃ page, rules_accept w q reg = mkOutcome reg [] (Normal page).
Proof.
  intros H. unfold rules_accept.
  destruct (truthy (query_state q)) eqn:Ht; simpl; [|unfold ret; eauto].
  unfold bind, map_get, ret. simpl.
  destruct H as [H|[H|(v & H & Hstep)]]; try discriminate; rewrite H; simpl; eauto.
  rewrite Hstep. eauto.
Qed.

Lemma rules_decline_no_record (q : Query) (reg : Registry) :
  (truthy (query_state q) = false
   ∨ reg !! default "" (query_state q) = None
   ∨ ∃ v, reg !! default "" (query_state q) = Some v
          ∧ step_is_not_rules_pending v = true) →
  ∃ page, rules_decline q reg = mkOutcome reg [] (Normal page).
Proof.
  intros H. unfold rules_decline.
  destruct (truthy (query_state q)) eqn:Ht; simpl; [|unfold ret; eauto].
  unfold bind, map_get, ret. simpl.
  destruct H as [H|[H|(v & H & Hstep)]]; try discriminate; rewrite H; simpl; eauto.
  rewrite Hstep. eauto.
Qed.

Lemma rules_decline_never_grants (q : Query) (reg : Registry) :
  grant_calls (trace (rules_decline q reg)) = 0%nat.
Proof.
  unfold rules_decline.
  destruct (truthy (query_state q)); simpl; [|reflexivity].
  unfold bind, lift, completed, ret, map_get, map_delete. simpl.
  destruct (reg !! default "" (query_state q)) as [v|]; simpl; [|reflexivity].
  destruct (step_is_not_rules_pending v); simpl; [reflexivity|].
  destruct (userData_prop v "login"); simpl; [|reflexivity].
  destruct (userData_prop v "displayname"); reflexivity.
Qed.

(** C8. For a record waiting for consent, the decline handler deletes the
    record and sends the decline page, its only effect being the deletion;
    no request to the decline handler ever makes a grant; and when the
    record is absent or not waiting for consent, the registry is left as it
    was and nothing else happens. *)
Theorem rules_decline_consumes (q : Query) (reg : Registry) (t : string) :
  query_state q = Some t → t ≠ "" →
  grant_calls (trace (rules_decline q reg)) = 0%nat
  ∧ (∀ v, reg !! t = Some v → consent_pending v →
       rules_decline q reg
       = mkOutcome (delete t reg) [MapDelete t] (Normal DeclinedPage)
       ∧ registry (rules_decline q reg) !! t = None)
  ∧ ((reg !! t = None
      ∨ ∃ v, reg !! t = Some v ∧ step v ≠ Some "rules_pending") →
     rules_decline q reg = mkOutcome reg [] (Normal InvalidRulesStatePage)).
Proof.
  intros Hstate Ht. split; [apply rules_decline_never_grants|].
  destruct q as [qc qs qe]. simpl in *. subst.
  apply String.eqb_neq in Ht. split.
  - intros v Hv Hpending.
    destruct (consent_pending_reads v "login" Hpending) as [Hstep [x1 Hx1]].
    destruct (consent_pending_reads v "displayname" Hpending) as [_ [x2 Hx2]].
    unfold rules_decline. simpl. rewrite Ht. simpl.
    unfold bind, lift, completed, ret, map_get, map_delete.
    simpl. rewrite Hv, Hstep, Hx1, Hx2. simpl.
    split; [reflexivity | apply lookup_delete_eq].
  - intros H. unfold rules_decline. simpl. rewrite Ht. simpl.
    unfold bind, map_get, ret. simpl.
    destruct H as [H|(v & H & Hstep)]; rewrite H; simpl; [reflexivity|].
    assert (step_is_not_rules_pending v = true) as ->; [|reflexivity].
    unfold step_is_not_rules_pending. destruct (step v) as [s|]; [|reflexivity].
    destruct (String.eqb s "rules_pending") eqn:E; [|reflexivity].
    apply String.eqb_eq in E. congruence.
Qed.

Lemma rules_decline_consumes_witness :
  rules_decline consent_query registry_consenting
  = mkOutcome (delete token registry_consenting) [MapDelete token] (Normal DeclinedPage)
  ∧ rules_decline consent_query registry_pending
    = mkOutcome registry_pending [] (Normal InvalidRulesStatePage).
Proof.
  assert (consent_pending consenting) as Hp.
  { split; [reflexivity|]. exists fixture. split; reflexivity. }
  split.
  - exact (proj1 (proj1 (proj2 (rules_decline_consumes consent_query
             registry_consenting token eq_refl ltac:(discriminate)))
             consenting eq_refl Hp)).
  - apply (proj2 (proj2 (rules_decline_consumes consent_query
             registry_pending token eq_refl ltac:(discriminate)))).
    right. exists pending. split; [reflexivity | discriminate].
Defined.

End Consent.

(** ** Replays and malformed requests *)

Section Replay.

Import Server Run Stated.





(** C2 (as the code has it). A callback without code or state and a
    callback whose state is not in the registry both leave the registry
    unchanged and have no effect, and both pages carry the same title and
    heading; but the pages differ in their text, so the two causes can be
    told apart. *)
Theorem malformed_and_unknown_pages (w : World) (reg : Registry)
    (malformed unknown : Query) :
  truthy (query_error malformed) = false →
  (truthy (query_code malformed) = false
   ∨ truthy (query_state malformed) = false) →
  truthy (query_error unknown) = false →
  truthy (query_code unknown) = true →
  truthy (query_state unknown) = true →
  reg !! default "" (query_state unknown) = None →
  auth_callback w malformed reg = mkOutcome reg [] (Normal MissingParametersPage)
  ∧ auth_callback w unknown reg = mkOutcome reg [] (Normal InvalidStatePage)
  ∧ page_title MissingParametersPage = page_title InvalidStatePage
  ∧ page_heading MissingParametersPage = page_heading InvalidStatePage
  ∧ page_paragraphs MissingParametersPage
    = ["Missing authorization code or state parameter."; "Please try again."]
  ∧ page_paragraphs InvalidStatePage
    = ["Invalid or expired verification request.";
       "Please try joining the server again."]
  ∧ completion (auth_callback w malformed reg)
    ≠ completion (auth_callback w unknown reg).
Proof.
  intros Herr1 Hbad Herr2 Hcode2 Hstate2 Hnone.
  assert (auth_callback w malformed reg
          = mkOutcome reg [] (Normal MissingParametersPage)) as H1.
  { unfold auth_callback. rewrite Herr1.
    destruct Hbad as [-> | ->]; simpl; [reflexivity|].
    by rewrite orb_true_r. }
  assert (auth_callback w unknown reg
          = mkOutcome reg [] (Normal InvalidStatePage)) as H2.
  { unfold auth_callback. rewrite Herr2, Hcode2, Hstate2. simpl.
    unfold bind, map_get, ret. simpl. by rewrite Hnone. }
  rewrite H1, H2. simpl. repeat split; discriminate.
Qed.

Lemma malformed_and_unknown_pages_witness :
  completion (auth_callback (world_with fixture)
                (mkQuery None (Some token) None) ∅)
  ≠ completion (auth_callback (world_with fixture) callback_query ∅).
Proof.
  exact (proj2 (proj2 (proj2 (proj2 (proj2 (proj2
    (malformed_and_unknown_pages (world_with fixture) ∅
       (mkQuery None (Some token) None) callback_query
       eq_refl (or_introl eq_refl) eq_refl eq_refl eq_refl eq_refl))))))).
Defined.

(** C2 as stated fails: the two responses differ. *)
Lemma malformed_distinguishable : ¬ malformed_indistinguishable_from_unknown.
Proof.
  intros H.
  specialize (H (world_with fixture) ∅ (mkQuery None (Some token) None)
                callback_query eq_refl (or_introl eq_refl) eq_refl eq_refl
                eq_refl eq_refl).
  vm_compute in H. discriminate.
Qed.

End Replay.

(** ** What one event does to a record *)

Section Steps.

Import Server Run Claims FortyTwoAPI.

Lemma registry_bind_ret {A B} (m : Handler A) (f : A → B) (reg : Registry) :
  registry (bind m (fun x => ret (f x)) reg) = registry (m reg)
  ∧ trace (bind m (fun x => ret (f x)) reg) = trace (m reg).
Proof.
  unfold bind, ret. destruct (m reg) as [reg1 tr1 [a|e]]; simpl; [|done].
  by rewrite app_nil_r.
Qed.

Lemma delete_change (w : World) (e : Event) (reg : Registry) (t k : string) :
  record_change w e reg (delete t reg) k.
Proof.
  destruct (decide (t = k)) as [->|Hne].
  - apply Gone, lookup_delete_eq.
  - apply Unchanged. by apply lookup_delete_ne.
Qed.

Lemma guildMemberAdd_registry (w : World) (member : Member) (state : string)
    (now : Z) (reg : Registry) :
  let o := guildMemberAdd w member state now reg in
  (registry o = reg ∧ trace o = [])
  ∨ ∃ v tr, step v = None ∧ userData v = None
            ∧ registry o = <[state := v]> reg
            ∧ trace o = MapSet state v :: tr ∧ forallb harmless tr = true.
Proof.
  unfold guildMemberAdd.
  destruct (in_configured_guild member); simpl; [|by left].
  destruct (has_42_role member); simpl; [by left|].
  right. unfold try_catch, bind, await, ret, map_set. simpl.
  destruct (member_send (discord w) (user_id member)) as [[]|e1]; simpl.
  { eexists (mkVerification _ _ _ None None), _; repeat split. }
  destruct (system_channel (discord w)) as [[[]|e2]|]; simpl.
  - eexists (mkVerification _ _ _ None None), _; repeat split.
  - eexists (mkVerification _ _ _ None None), _; repeat split.
  - eexists (mkVerification _ _ _ None None), _; repeat split.
Qed.

Lemma rules_accept_registry (w : World) (q : Query) (reg : Registry) :
  let o := rules_accept w q reg in
  (registry o = reg ∨ registry o = delete (default "" (query_state q)) reg)
  ∧ ∀ t, List.filter (consent_write t) (trace o) = [].
Proof.
  unfold rules_accept.
  destruct (truthy (query_state q)); simpl; [|by split; [left|]].
  unfold try_catch, bind, lift, completed, await, throw, ret, map_get, map_delete.
  simpl. destruct (reg !! default "" (query_state q)) as [v|]; simpl;
    [|by split; [left|]].
  destruct (step_is_not_rules_pending v); simpl; [by split; [left|]|].
  destruct (userData_prop v "login"); simpl; [|by split; [left|]].
  destruct (userData_prop v "displayname"); simpl; [|by split; [left|]].
  destruct (guilds_cache_get (discord w)); simpl; [|by split; [right|]].
  destruct (members_fetch (discord w) (discordUserId v)) as [[|]|e1]; simpl;
    [|by split; [right|]..].
  destruct (roles_cache_get (discord w)); simpl; [|by split; [right|]].
  destruct (bot_member_cached (discord w)); simpl; [|by split; [right|]].
  destruct (roles_add (discord w) (discordUserId v)) as [[]|e2]; simpl;
    [|by split; [right|]].
  destruct (member_send (discord w) (discordUserId v)) as [[]|e3]; simpl;
    by split; [right|].
Qed.

Lemma rules_decline_registry (q : Query) (reg : Registry) :
  let o := rules_decline q reg in
  (registry o = reg ∨ registry o = delete (default "" (query_state q)) reg)
  ∧ ∀ t, List.filter (consent_write t) (trace o) = [].
Proof.
  unfold rules_decline.
  destruct (truthy (query_state q)); simpl; [|by split; [left|]].
  unfold bind, lift, completed, ret, map_get, map_delete.
  simpl. destruct (reg !! default "" (query_state q)) as [v|]; simpl;
    [|by split; [left|]].
  destruct (step_is_not_rules_pending v); simpl; [by split; [left|]|].
  destruct (userData_prop v "login"); simpl; [|by split; [left|]].
  destruct (userData_prop v "displayname"); simpl;
    [by split; [right|] | by split; [left|]].
Qed.

End Steps.

Section Lifetime.

Import Server Run Claims FortyTwoAPI Utils.

Lemma callback_post_cases (w : World) (q : Query) (code t : string)
    (reg : Registry) (v : Verification) (o : Outcome Page) :
  query_code q = Some code →
  callback_post w code t reg v o →
  (∃ msg, callback_failed o t reg msg)
  ∨ (∃ u, callback_confirmed o t reg v u ∧ identity_checked w q u).
Proof.
  intros Hq. unfold callback_post, identity_checked.
  destruct (exchangeCodeForToken (axios w) code).2 as [tokenResponse|e1] eqn:H1;
    [|eauto].
  destruct (getUserInfo (axios w) (read tokenResponse "access_token")).2
    as [u|e2] eqn:H2; [|eauto].
  destruct (validateStudentStatus u).2 as [[|]|e3] eqn:H3; [|eauto..].
  destruct (guilds_cache_get (discord w)); [|eauto].
  destruct (members_fetch (discord w) (discordUserId v)) as [[|]|e4]; [|eauto..].
  intros H. right. exists u. split; [done|]. exists code, tokenResponse. auto.
Qed.

Lemma auth_callback_cases (w : World) (q : Query) (reg : Registry) :
  let o := auth_callback w q reg in
  (registry o = reg ∧ trace o = [])
  ∨ (∃ t v, query_state q = Some t ∧ reg !! t = Some v
            ∧ ((∃ msg, callback_failed o t reg msg)
               ∨ ∃ u, callback_confirmed o t reg v u ∧ identity_checked w q u)).
Proof.
  simpl. destruct q as [qc qs qe].
  destruct (truthy qe) eqn:Herr.
  { left. destruct (auth_callback_no_record w (mkQuery qc qs qe) reg) as [p ->];
      [by left | done]. }
  destruct (truthy qc) eqn:Hc.
  2:{ left. destruct (auth_callback_no_record w (mkQuery qc qs qe) reg) as [p ->];
        [by right; left | done]. }
  destruct (truthy qs) eqn:Ht.
  2:{ left. destruct (auth_callback_no_record w (mkQuery qc qs qe) reg) as [p ->];
        [by right; right; left | done]. }
  destruct qc as [code|]; [|discriminate]. destruct qs as [t|]; [|discriminate].
  destruct (reg !! t) as [v|] eqn:Hv.
  2:{ left. destruct (auth_callback_no_record w (mkQuery (Some code) (Some t) qe) reg)
        as [p ->]; [by right; right; right | done]. }
  right. exists t, v. split; [done|]. split; [done|].
  apply (callback_post_cases w _ code); [done|].
  apply auth_callback_live; auto.
  - intros ->. discriminate.
  - intros ->. discriminate.
Qed.

Lemma insert_change (w : World) (q : Query) (reg : Registry) (t k : string)
    (v : Verification) (u : JsVal) :
  query_state q = Some t → reg !! t = Some v → identity_checked w q u →
  record_change w (AuthCallback q) reg (<[t := rules_pending_record v u]> reg) k.
Proof.
  intros Hq Hv Hchecked. destruct (decide (t = k)) as [->|Hne].
  - eapply Confirmed; eauto. apply lookup_insert_eq.
  - apply Unchanged. by apply lookup_insert_ne.
Qed.

Lemma cleanup_change (w : World) (e : Event) (now : Z) (reg : Registry) (k : string) :
  record_change w e reg (cleanupExpiredVerifications now reg None).1 k.
Proof.
  destruct (reg !! k) as [v|] eqn:Hv.
  - destruct (expired now default_maxAge v) eqn:Hexp; unfold expired in Hexp.
    + apply Gone. apply bool_decide_eq_true in Hexp.
      by eapply cleanup_removes.
    + apply Unchanged. apply bool_decide_eq_false in Hexp.
      rewrite Hv. apply cleanup_keeps; [done|]. simpl. lia.
  - apply Gone. by apply cleanup_absent.
Qed.

(** Every event changes a record in one of the four ways. *)
Lemma handle_change (w : World) (e : Event) (reg : Registry) (k : string) :
  record_change w e reg (registry (handle w e reg)) k.
Proof.
  destruct e as [member state now|q|q|q|now]; unfold handle.
  - rewrite (proj1 (registry_bind_ret _ (fun _ => None) reg)).
    destruct (guildMemberAdd_registry w member state now reg)
      as [[-> _]|(v & tr & Hstep & _ & -> & _)]; [by apply Unchanged|].
    destruct (decide (state = k)) as [->|Hne].
    + eapply Created; [|apply lookup_insert_eq|done].
      simpl. apply String.eqb_refl.
    + apply Unchanged. by apply lookup_insert_ne.
  - rewrite (proj1 (registry_bind_ret _ Some reg)).
    destruct (auth_callback_cases w q reg)
      as [[-> _]|(t & v & Hq & Hv & [[msg (-> & _)]|[u [(-> & _) Hchecked]]])].
    + by apply Unchanged.
    + apply delete_change.
    + by apply insert_change.
  - rewrite (proj1 (registry_bind_ret _ Some reg)).
    destruct (rules_accept_registry w q reg) as [[-> | ->] _];
      [by apply Unchanged | apply delete_change].
  - rewrite (proj1 (registry_bind_ret _ Some reg)).
    destruct (rules_decline_registry q reg) as [[-> | ->] _];
      [by apply Unchanged | apply delete_change].
  - rewrite (proj1 (registry_bind_ret _ (fun _ => None) reg)).
    apply cleanup_change.
Qed.

Lemma confirms_phase (t : string) (reg reg' : Registry) :
  confirms t reg reg' = true → phase reg t = 0%nat ∧ phase reg' t = 1%nat.
Proof.
  unfold confirms, awaiting_identity, awaiting_consent, phase,
    step_is_not_rules_pending.
  intros H. apply andb_true_iff in H as [H1 H2].
  destruct (reg !! t) as [v|]; [|discriminate].
  destruct (reg' !! t) as [v'|]; [|discriminate].
  destruct (step v); [discriminate|]. by destruct (step v').
Qed.

Lemma confirms_checked (w : World) (e : Event) (reg : Registry) (t : string) :
  confirms t reg (registry (handle w e reg)) = true →
  ∃ q u, e = AuthCallback q ∧ query_state q = Some t ∧ identity_checked w q u.
Proof.
  intros H. destruct (confirms_phase _ _ _ H) as [H0 H1].
  unfold phase in *.
  destruct (handle_change w e reg t) as [Heq|Hgone|v Hc Hv Hstep|q v u -> Hq Hv Hv' Hchecked].
  - rewrite Heq in H1. congruence.
  - rewrite Hgone in H1. discriminate.
  - rewrite Hv, Hstep in H1. discriminate.
  - eauto.
Qed.

Lemma phase_monotone (w : World) (e : Event) (reg : Registry) (t : string) :
  creates t e = false →
  (phase reg t ≤ phase (registry (handle w e reg)) t)%nat.
Proof.
  intros Hc. unfold phase.
  destruct (handle_change w e reg t) as [Heq|Hgone|v Hc' Hv Hstep|q v u -> Hq Hv Hv' Hchecked].
  - by rewrite Heq.
  - rewrite Hgone. destruct (reg !! t) as [v|]; [destruct (step v)|]; lia.
  - congruence.
  - rewrite Hv, Hv'. simpl. destruct (step v); lia.
Qed.

Lemma confirmations_bound (t : string) (events : list (World * Event))
    (reg : Registry) :
  within_lifetime t events = true →
  (confirmations t events reg ≤ if Nat.eqb (phase reg t) 0 then 1 else 0)%nat.
Proof.
  revert reg. induction events as [|[w e] events IH]; intros reg Hlife.
  - simpl. destruct (Nat.eqb _ _); lia.
  - simpl in Hlife. apply andb_true_iff in Hlife as [Hc Hlife].
    apply negb_true_iff in Hc. simpl.
    specialize (IH (registry (handle w e reg)) Hlife).
    pose proof (phase_monotone w e reg t Hc) as Hmono.
    destruct (confirms t reg (registry (handle w e reg))) eqn:Hconf.
    + destruct (confirms_phase _ _ _ Hconf) as [H0 H1].
      rewrite H0. rewrite H1 in IH. simpl in *. lia.
    + destruct (Nat.eqb (phase (registry (handle w e reg)) t) 0) eqn:E.
      * apply Nat.eqb_eq in E. assert (phase reg t = 0%nat) as -> by lia.
        simpl. lia.
      * destruct (Nat.eqb (phase reg t) 0); lia.
Qed.

Lemma handle_consent_write (w : World) (e : Event) (reg : Registry) (t : string) :
  List.filter (consent_write t) (trace (handle w e reg)) ≠ [] →
  ∃ q u, e = AuthCallback q ∧ query_state q = Some t ∧ identity_checked w q u.
Proof.
  destruct e as [member state now|q|q|q|now]; unfold handle.
  - rewrite (proj2 (registry_bind_ret _ (fun _ => None) reg)).
    destruct (guildMemberAdd_registry w member state now reg)
      as [[_ ->]|(v & tr & Hstep & Hu & _ & -> & Htr)]; [done|].
    simpl. rewrite Hu, andb_false_r.
    rewrite <- (app_nil_r tr), harmless_consent_writes; done.
  - rewrite (proj2 (registry_bind_ret _ Some reg)).
    destruct (auth_callback_cases w q reg)
      as [[_ ->]|(t' & v & Hq & Hv & [[msg (_ & _ & pre & -> & Hpre)]
                                     |[u [(_ & _ & pre & -> & Hpre) Hchecked]]])].
    + done.
    + by rewrite harmless_consent_writes.
    + rewrite harmless_consent_writes by done. simpl.
      destruct (String.eqb t' t) eqn:E; [|done].
      apply String.eqb_eq in E. subst t'. eauto.
  - rewrite (proj2 (registry_bind_ret _ Some reg)).
    by rewrite (proj2 (rules_accept_registry w q reg)).
  - rewrite (proj2 (registry_bind_ret _ Some reg)).
    by rewrite (proj2 (rules_decline_registry q reg)).
  - rewrite (proj2 (registry_bind_ret _ (fun _ => None) reg)). done.
Qed.

End Lifetime.

Section LifetimeClaims.

Import Server Run Claims FortyTwoAPI Stated.

(** The records the handlers leave behind keep their claims: a record with
    step ['rules_pending'] carries the claims that passed the checks. *)
Lemma handle_well_formed (w : World) (e : Event) (reg : Registry) :
  well_formed reg → well_formed (registry (handle w e reg)).
Proof.
  intros Hwf t v' Hv'.
  destruct (handle_change w e reg t)
    as [Heq|Hgone|v Hc Hv Hstep|q v u -> Hq Hv Hvu Hchecked].
  - rewrite Heq in Hv'. eauto.
  - congruence.
  - left. congruence.
  - right. rewrite Hvu in Hv'. injection Hv' as <-.
    split; [reflexivity|]. exists u. split; [reflexivity|].
    destruct Hchecked as (code & tokenResponse & _ & _ & _ & Hvalid).
    apply verdict_true in Hvalid as [Hvalid _]. unfold eligible in Hvalid.
    rewrite !andb_true_iff in Hvalid. tauto.
Qed.

Lemma run_well_formed (events : list (World * Event)) (reg : Registry) :
  well_formed reg → well_formed (run events reg).1.
Proof.
  revert reg. induction events as [|[w e] events IH]; intros reg Hwf; [done|].
  simpl. specialize (IH _ (handle_well_formed w e reg Hwf)).
  by destruct (run events (registry (handle w e reg))).
Qed.

(** From the empty registry the process only reaches registries whose
    consent-pending records carry their claims. *)
Lemma reachable_well_formed (events : list (World * Event)) :
  well_formed (run events ∅).1.
Proof. apply run_well_formed. intros t v Hv. by rewrite lookup_empty in Hv. Qed.

(** C3 (as the code has it). The step of a record changes from absent to
    ['rules_pending'] only in the identity callback for its token, after a
    successful token exchange, a successful claims fetch and a passing
    eligibility check; the same holds for every write of a consent-pending
    record; and within one lifetime of the record the change happens at most
    once. *)
Theorem consent_transition_at_most_once (t : string) :
  (∀ w e reg,
     confirms t reg (registry (handle w e reg)) = true →
     ∃ q u, e = AuthCallback q ∧ query_state q = Some t ∧ identity_checked w q u)
  ∧ (∀ w e reg,
       List.filter (consent_write t) (trace (handle w e reg)) ≠ [] →
       ∃ q u, e = AuthCallback q ∧ query_state q = Some t ∧ identity_checked w q u)
  ∧ (∀ events reg,
       within_lifetime t events = true →
       (confirmations t events reg ≤ 1)%nat).
Proof.
  split; [|split].
  - intros w e reg. apply confirms_checked.
  - intros w e reg. apply handle_consent_write.
  - intros events reg Hlife.
    pose proof (confirmations_bound t events reg Hlife) as H.
    destruct (Nat.eqb (phase reg t) 0); lia.
Qed.

Lemma consent_transition_at_most_once_witness :
  (confirmations token run_confirmed_twice registry_pending ≤ 1)%nat
  ∧ ∃ q u, AuthCallback callback_query = AuthCallback q
           ∧ query_state q = Some token
           ∧ identity_checked (world_with fixture) q u.
Proof.
  split.
  - apply (proj2 (proj2 (consent_transition_at_most_once token))
             run_confirmed_twice registry_pending). reflexivity.
  - apply (proj1 (consent_transition_at_most_once token)
             (world_with fixture) (AuthCallback callback_query) registry_pending).
    reflexivity.
Defined.

(** C3 as stated fails: a record whose callback is answered twice is written
    as consent-pending twice in its lifetime, and a record whose claims are
    rejected is never confirmed. *)
Lemma consent_not_exactly_once :
  ¬ consent_written_exactly_once ∧ ¬ step_confirmed_exactly_once.
Proof.
  split.
  - intros H.
    specialize (H token join_event run_confirmed_twice eq_refl eq_refl eq_refl).
    vm_compute in H. discriminate.
  - intros H.
    specialize (H token join_event run_rejected eq_refl eq_refl eq_refl).
    vm_compute in H. discriminate.
Qed.

End LifetimeClaims.

(** ** State tokens and the authorisation URL *)

Section Tokens.

Import Token AuthUrl.

Lemma hex_of_byte_digits (b : byte) :
  is_hex_digit (hex_digit (Byte.to_N b / 16)) = true
  ∧ is_hex_digit (hex_digit (Byte.to_N b mod 16)) = true.
Proof. destruct b; split; vm_compute; reflexivity. Qed.

Lemma hex_of_byte_read (b : byte) :
  hex_value (hex_digit (Byte.to_N b / 16)) = Some (Byte.to_N b / 16)%N
  ∧ hex_value (hex_digit (Byte.to_N b mod 16)) = Some (Byte.to_N b mod 16)%N
  ∧ Byte.of_N (Byte.to_N b / 16 * 16 + Byte.to_N b mod 16) = Some b.
Proof. destruct b; repeat split; vm_compute; reflexivity. Qed.

Lemma to_hex_length (buffer : list byte) :
  String.length (to_hex buffer) = (2 * length buffer)%nat.
Proof. induction buffer as [|b buffer IH]; simpl; lia. Qed.

Lemma to_hex_digits (buffer : list byte) :
  all_chars is_hex_digit (to_hex buffer) = true.
Proof.
  induction buffer as [|b buffer IH]; [reflexivity|].
  destruct (hex_of_byte_digits b) as [Hhi Hlo].
  simpl. by rewrite Hhi, Hlo, IH.
Qed.

Lemma of_hex_to_hex (buffer : list byte) : of_hex (to_hex buffer) = Some buffer.
Proof.
  induction buffer as [|b buffer IH]; [reflexivity|].
  destruct (hex_of_byte_read b) as (Hhi & Hlo & Hb).
  simpl. by rewrite Hhi, Hlo, IH, Hb.
Qed.

(** X1. A generated state is 64 characters long, all of them lowercase
    hexadecimal digits; in particular it is a non-empty string, which the
    handlers treat as a present [state] parameter. *)
Theorem generateState_shape (randomBytes : nat → list byte) :
  length (randomBytes 32%nat) = 32%nat →
  String.length (generateState randomBytes) = 64%nat
  ∧ all_chars is_hex_digit (generateState randomBytes) = true
  ∧ generateState randomBytes ≠ ""
  ∧ truthy (Some (generateState randomBytes)) = true.
Proof.
  intros Hlen. unfold generateState.
  assert (String.length (to_hex (randomBytes 32%nat)) = 64%nat) as H64.
  { rewrite to_hex_length, Hlen. reflexivity. }
  split; [exact H64|]. split; [apply to_hex_digits|].
  assert (to_hex (randomBytes 32%nat) ≠ "") as Hne.
  { intros Heq. rewrite Heq in H64. discriminate. }
  split; [exact Hne|]. simpl. apply String.eqb_neq in Hne. by rewrite Hne.
Qed.

Lemma generateState_shape_witness :
  String.length (generateState (fun n => repeat x2a n)) = 64%nat
  ∧ all_chars is_hex_digit (generateState (fun n => repeat x2a n)) = true
  ∧ generateState (fun n => repeat x2a n) ≠ ""
  ∧ truthy (Some (generateState (fun n => repeat x2a n))) = true.
Proof. apply (generateState_shape (fun n => repeat x2a n)). reflexivity. Defined.

(** X2. A state can be read back to the random bytes it was made of, so
    two draws that differ give two different states. *)
Theorem generateState_injective (randomBytes : nat → list byte) :
  of_hex (generateState randomBytes) = Some (randomBytes 32%nat)
  ∧ ∀ randomBytes' : nat → list byte,
      generateState randomBytes = generateState randomBytes' →
      randomBytes 32%nat = randomBytes' 32%nat.
Proof.
  unfold generateState. split; [apply of_hex_to_hex|].
  intros randomBytes' Heq.
  pose proof (of_hex_to_hex (randomBytes 32%nat)) as H1.
  pose proof (of_hex_to_hex (randomBytes' 32%nat)) as H2.
  rewrite Heq in H1. congruence.
Qed.

Lemma generateState_injective_witness :
  (fun n => repeat x2a n) 32%nat = (fun n => repeat x2a n) 32%nat.
Proof.
  apply (proj2 (generateState_injective (fun n => repeat x2a n))
           (fun n => repeat x2a n)). reflexivity.
Defined.

Lemma encode_byte_chars (c : ascii) (rest : string) :
  all_chars encoded_char rest = true →
  all_chars encoded_char (encode_byte c rest) = true.
Proof.
  intros H. unfold encode_byte.
  destruct (unreserved c) eqn:Hu.
  { simpl. unfold encoded_char at 1. by rewrite Hu. }
  destruct (Ascii.eqb c " "); [simpl; exact H|].
  cbn [all_chars]. rewrite H.
  destruct c as [[] [] [] [] [] [] [] []]; vm_compute; reflexivity.
Qed.

Lemma form_urlencode_chars (s : string) :
  all_chars encoded_char (form_urlencode s) = true.
Proof.
  induction s as [|c s IH]; [reflexivity|]. simpl. by apply encode_byte_chars.
Qed.

Lemma hex_digit_unreserved (c : ascii) :
  is_hex_digit c = true → unreserved c = true.
Proof.
  destruct c as [[] [] [] [] [] [] [] []]; vm_compute; congruence.
Qed.

Lemma form_urlencode_hex (s : string) :
  all_chars is_hex_digit s = true → form_urlencode s = s.
Proof.
  induction s as [|c s IH]; [reflexivity|]. simpl.
  intros H. apply andb_true_iff in H as [Hc Hs].
  unfold encode_byte. rewrite (hex_digit_unreserved _ Hc). by rewrite IH.
Qed.

(** X3. The authorisation URL carries a generated state unchanged as its
    last parameter, after the fixed [response_type=code] and
    [scope=public]; the client id and the redirect URI are percent-encoded,
    so what they contribute holds no [&], [=], [#] or other delimiter. *)
Theorem createAuthUrl_state (clientId redirectUri : string)
    (randomBytes : nat → list byte) :
  createAuthUrl clientId redirectUri (generateState randomBytes)
  = "https://api.intra.42.fr/oauth/authorize?client_id="
    +:+ form_urlencode clientId +:+ "&redirect_uri="
    +:+ form_urlencode redirectUri
    +:+ "&response_type=code&scope=public&state=" +:+ generateState randomBytes
  ∧ all_chars encoded_char (form_urlencode clientId) = true
  ∧ all_chars encoded_char (form_urlencode redirectUri) = true
  ∧ encoded_char "&" = false ∧ encoded_char "=" = false
  ∧ encoded_char "#" = false ∧ encoded_char "?" = false.
Proof.
  split; [|by repeat split; try apply form_urlencode_chars].
  unfold createAuthUrl, generateState.
  cbn [serialize].
  rewrite (form_urlencode_hex (to_hex _)) by apply to_hex_digits.
  change (form_urlencode "client_id") with "client_id".
  change (form_urlencode "redirect_uri") with "redirect_uri".
  change (form_urlencode "response_type") with "response_type".
  change (form_urlencode "code") with "code".
  change (form_urlencode "scope") with "scope".
  change (form_urlencode "public") with "public".
  change (form_urlencode "state") with "state".
  generalize (form_urlencode clientId) (form_urlencode redirectUri)
    (to_hex (randomBytes 32%nat)).
  intros a b c. reflexivity.
Qed.

End Tokens.

(** ** More on the sweep *)

Section SweepAgain.

Import Utils.

Lemma cleanup_lookup (now : Z) (reg : Registry) (maxAge : option Z) (k : string) :
  (cleanupExpiredVerifications now reg maxAge).1 !! k
  = match reg !! k with
    | Some v => if expired now (default default_maxAge maxAge) v then None else Some v
    | None => None
    end.
Proof.
  destruct (reg !! k) as [v|] eqn:Hv; [|by apply cleanup_absent].
  destruct (expired now (default default_maxAge maxAge) v) eqn:Hexp; unfold expired in Hexp.
  - apply bool_decide_eq_true in Hexp. by eapply cleanup_removes.
  - apply bool_decide_eq_false in Hexp. apply cleanup_keeps; [done | lia].
Qed.

Lemma cleanup_fold_count (now maxAge : Z) (l : list (string * Verification))
    (acc : Registry * nat) :
  NoDup (l.*1) →
  (∀ k v, (k, v) ∈ l → acc.1 !! k = Some v) →
  (size (foldl (cleanup_entry now maxAge) acc l).1
   + (foldl (cleanup_entry now maxAge) acc l).2
   = size acc.1 + acc.2)%nat.
Proof.
  revert acc. induction l as [|[k v] l IH]; intros acc Hnd Hin; [done|].
  simpl in Hnd. apply NoDup_cons in Hnd as [Hk Hnd].
  assert (acc.1 !! k = Some v) as Hkv by (apply Hin; apply elem_of_cons; by left).
  simpl. unfold cleanup_entry at 2 4. simpl.
  destruct (expired now maxAge v).
  - rewrite IH; [|done|].
    + simpl. rewrite map_size_delete_Some by eauto.
      assert (size acc.1 ≠ 0%nat); [|lia].
      intros H0. apply map_size_empty_inv in H0. rewrite H0 in Hkv.
      by rewrite lookup_empty in Hkv.
    + intros k' v' Hin'. simpl. rewrite lookup_delete_ne.
      * apply Hin. apply elem_of_cons. by right.
      * intros ->. apply Hk. apply list_elem_of_fmap. by exists (k', v').
  - apply IH; [done|]. intros k' v' Hin'. apply Hin. apply elem_of_cons. by right.
Qed.

Lemma cleanup_size (now : Z) (reg : Registry) (maxAge : option Z) :
  (size (cleanupExpiredVerifications now reg maxAge).1
   + cleanedCount now reg maxAge = size reg)%nat.
Proof.
  unfold cleanupExpiredVerifications, cleanedCount, cleanup_loop. simpl.
  rewrite cleanup_fold_count.
  - simpl. lia.
  - apply NoDup_fst_map_to_list.
  - intros k v Hin. by apply elem_of_map_to_list.
Qed.

Lemma cleanup_after (now later : Z) (reg : Registry) (maxAge : option Z) :
  now ≤ later →
  (cleanupExpiredVerifications later
     (cleanupExpiredVerifications now reg maxAge).1 maxAge).1
  = (cleanupExpiredVerifications later reg maxAge).1.
Proof.
  intros Hle. apply map_eq. intros k. rewrite !cleanup_lookup.
  destruct (reg !! k) as [v|]; [|done].
  destruct (expired now _ v) eqn:E1; [|done].
  destruct (expired later _ v) eqn:E2; [done|].
  unfold expired in *. apply bool_decide_eq_true in E1.
  apply bool_decide_eq_false in E2. lia.
Qed.

(** X4. The local counter [cleanedCount] of the sweep, which the
    'Cleanup Complete' debug line reports, ends as the number of records the
    sweep removed: the size of the registry before minus the size after,
    which is the difference the interval callback of index.js reports. *)
Theorem cleanupExpiredVerifications_count (now : Z) (reg : Registry)
    (maxAge : option Z) :
  (size (cleanupExpiredVerifications now reg maxAge).1
   + cleanedCount now reg maxAge = size reg)%nat
  ∧ cleanedCount now reg maxAge
    = (size reg - size (cleanupExpiredVerifications now reg maxAge).1)%nat.
Proof.
  pose proof (cleanup_size now reg maxAge) as H.
  split; [exact H | lia].
Qed.

(** X5. Sweeping again changes nothing: a sweep that follows an earlier one
    leaves the registry that a single sweep at the later time leaves, and a
    second sweep at the same time leaves the registry as the first left it,
    its counter staying at zero. *)
Theorem cleanupExpiredVerifications_again (now later : Z) (reg : Registry)
    (maxAge : option Z) :
  now ≤ later →
  (cleanupExpiredVerifications later
     (cleanupExpiredVerifications now reg maxAge).1 maxAge).1
  = (cleanupExpiredVerifications later reg maxAge).1
  ∧ (cleanupExpiredVerifications now
       (cleanupExpiredVerifications now reg maxAge).1 maxAge).1
    = (cleanupExpiredVerifications now reg maxAge).1
  ∧ cleanedCount now (cleanupExpiredVerifications now reg maxAge).1 maxAge
    = 0%nat.
Proof.
  intros Hle. split; [by apply cleanup_after|].
  assert ((cleanupExpiredVerifications now
             (cleanupExpiredVerifications now reg maxAge).1 maxAge).1
          = (cleanupExpiredVerifications now reg maxAge).1) as Hfix.
  { rewrite cleanup_after by lia. reflexivity. }
  split; [exact Hfix|].
  pose proof (cleanup_size now
                (cleanupExpiredVerifications now reg maxAge).1 maxAge) as Hcount.
  rewrite Hfix in Hcount. lia.
Qed.

Lemma cleanupExpiredVerifications_again_witness :
  (cleanupExpiredVerifications 1700000700000
     (cleanupExpiredVerifications 1700000000001 registry_pending None).1 None).1
  = (cleanupExpiredVerifications 1700000700000 registry_pending None).1.
Proof.
  apply (proj1 (cleanupExpiredVerifications_again 1700000000001 1700000700000
                  registry_pending None ltac:(lia))).
Defined.

End SweepAgain.

(** ** Reading the claims *)

Section ProfileFacts.

Import FortyTwoAPI Claims Profile Run.

Lemma validate42User_closed (u : JsVal) :
  validate42User u
  = ([], Normal (to_boolean u && to_boolean (read u "login")
                 && to_boolean (read u "email")
                 && has_entries (read u "cursus_users"))).
Proof.
  unfold validate42User, or_else.
  destruct (to_boolean u) eqn:Hu; simpl; [|reflexivity].
  rewrite !(falsy_prop_truthy _ _ Hu), !(missing_or_empty_truthy _ _ Hu). simpl.
  destruct (to_boolean (read u "login")); simpl; [|reflexivity].
  destruct (to_boolean (read u "email")); simpl; [|reflexivity].
  destruct (has_entries (read u "cursus_users")); reflexivity.
Qed.

(** X6. [validate42User] never throws and has no effect, and it is the
    weaker check: every payload [validateStudentStatus] accepts it accepts
    too, and what it accepts beyond that are exactly the payloads that fail
    on the staff flag, the campus list or the active flag. *)
Theorem validate42User_weaker (u : JsVal) :
  ∃ b, validate42User u = ([], Normal b)
       ∧ (verdict u = Normal true → b = true)
       ∧ (b = true → verdict u = Normal false →
          to_boolean (read u "staff?") = true
          ∨ has_entries (read u "campus") = false
          ∨ strict_eq_false (read u "active?") = true).
Proof.
  rewrite validate42User_closed. eexists. split; [reflexivity|].
  split;
    [intros H; apply verdict_true in H as [H _]
    |intros Hb H; apply verdict_false_inv in H; revert Hb];
    revert H; unfold eligible;
  destruct (to_boolean u), (to_boolean (read u "login")),
    (to_boolean (read u "email")), (has_entries (read u "cursus_users")),
    (to_boolean (read u "staff?")), (has_entries (read u "campus")),
    (strict_eq_false (read u "active?"));
    simpl; intuition congruence.
Qed.

Lemma validate42User_weaker_witness :
  ∃ b, validate42User staff_fixture = ([], Normal b) ∧ b = true
       ∧ (to_boolean (read staff_fixture "staff?") = true
          ∨ has_entries (read staff_fixture "campus") = false
          ∨ strict_eq_false (read staff_fixture "active?") = true).
Proof.
  destruct (validate42User_weaker staff_fixture) as (b & Hb & _ & Hgap).
  exists b. split; [exact Hb|].
  assert (b = true) as Htrue.
  { rewrite validate42User_closed in Hb. by injection Hb as <-. }
  split; [exact Htrue|]. apply Hgap; [exact Htrue | reflexivity].
Defined.

Lemma get_first_truthy (v : JsVal) :
  to_boolean v = true → ∃ x, get_first v = Normal x.
Proof. destruct v; simpl; intros H; try discriminate; eauto. Qed.

Lemma first_of_entries (u : JsVal) (k : string) :
  has_entries (read u k) = true →
  get_first (read u k) = Normal (first_of u k).
Proof.
  unfold has_entries, first_of. intros H. apply andb_true_iff in H as [H _].
  by destruct (get_first_truthy _ H) as [x ->].
Qed.

Lemma getPrimaryCampus_closed (u : JsVal) :
  to_boolean u = true →
  getPrimaryCampus u
  = ([], if has_entries (read u "campus")
         then get_prop (first_of u "campus") "name" else Normal JNull).
Proof.
  intros Hu. unfold getPrimaryCampus.
  rewrite (missing_or_empty_truthy _ _ Hu). simpl.
  destruct (has_entries (read u "campus")) eqn:E; simpl; [|reflexivity].
  rewrite (get_prop_truthy _ _ Hu). simpl. rewrite (first_of_entries _ _ E). simpl.
  by destruct (get_prop _ _).
Qed.

Lemma getCurrentLevel_closed (u : JsVal) :
  to_boolean u = true →
  getCurrentLevel u
  = ([], if has_entries (read u "cursus_users")
         then get_prop (first_of u "cursus_users") "level" else Normal JNull).
Proof.
  intros Hu. unfold getCurrentLevel.
  rewrite (missing_or_empty_truthy _ _ Hu). simpl.
  destruct (has_entries (read u "cursus_users")) eqn:E; simpl; [|reflexivity].
  rewrite (get_prop_truthy _ _ Hu). simpl. rewrite (first_of_entries _ _ E). simpl.
  by destruct (get_prop _ _).
Qed.

Lemma getPrimaryCursus_closed (u : JsVal) :
  to_boolean u = true →
  getPrimaryCursus u
  = ([], if has_entries (read u "cursus_users")
         then match get_prop (first_of u "cursus_users") "cursus" with
              | Normal cursus => get_prop cursus "name"
              | Throw e => Throw e
              end
         else Normal JNull).
Proof.
  intros Hu. unfold getPrimaryCursus.
  rewrite (missing_or_empty_truthy _ _ Hu). simpl.
  destruct (has_entries (read u "cursus_users")) eqn:E; simpl; [|reflexivity].
  rewrite (get_prop_truthy _ _ Hu). simpl. rewrite (first_of_entries _ _ E). simpl.
  destruct (get_prop (first_of u "cursus_users") "cursus"); simpl; [|reflexivity].
  by destruct (get_prop _ _).
Qed.

Lemma eligible_parts (u : JsVal) :
  verdict u = Normal true →
  to_boolean u = true
  ∧ to_boolean (read u "staff?") = false
  ∧ has_entries (read u "cursus_users") = true
  ∧ has_entries (read u "campus") = true.
Proof.
  intros H. apply verdict_true in H as [H _]. unfold eligible in H.
  rewrite !andb_true_iff, negb_true_iff in H. tauto.
Qed.

(** X7. The three getters return [null], without throwing, when the list
    they read is missing or empty; on claims that [validateStudentStatus]
    accepted they never take that branch: they read the first entry of the
    list, and throw only if that entry (or its [cursus]) is [null] or
    missing. *)
Theorem getters_first_entry (u : JsVal) :
  to_boolean u = true →
  (has_entries (read u "campus") = false →
   getPrimaryCampus u = ([], Normal JNull))
  ∧ (has_entries (read u "cursus_users") = false →
     getPrimaryCursus u = ([], Normal JNull)
     ∧ getCurrentLevel u = ([], Normal JNull))
  ∧ (verdict u = Normal true →
     getPrimaryCampus u = ([], get_prop (first_of u "campus") "name")
     ∧ getCurrentLevel u = ([], get_prop (first_of u "cursus_users") "level")
     ∧ getPrimaryCursus u
       = ([], match get_prop (first_of u "cursus_users") "cursus" with
              | Normal cursus => get_prop cursus "name"
              | Throw e => Throw e
              end)).
Proof.
  intros Hu.
  rewrite (getPrimaryCampus_closed _ Hu), (getCurrentLevel_closed _ Hu),
    (getPrimaryCursus_closed _ Hu).
  split; [by intros ->|]. split; [by intros ->|].
  intros Hv. destruct (eligible_parts _ Hv) as (_ & _ & -> & ->). done.
Qed.

Lemma getters_first_entry_witness :
  getPrimaryCampus full_fixture = ([], Normal (JStr "Paris"))
  ∧ getCurrentLevel full_fixture = ([], Normal (JNum 7))
  ∧ getPrimaryCursus full_fixture = ([], Normal (JStr "42cursus")).
Proof.
  exact (proj2 (proj2 (getters_first_entry full_fixture eq_refl)) eq_refl).
Defined.

(** X8. On claims that [validateStudentStatus] accepted,
    [createUserSummary] returns a summary whose [isStaff] is [false] and
    whose campus, cursus and level are read from the first entries, provided
    the first campus entry, the first cursus entry and its [cursus] are
    there; if one of them is [null] or missing it throws. *)
Theorem createUserSummary_accepted (u : JsVal) :
  verdict u = Normal true →
  (absent (first_of u "campus") = false →
   absent (first_of u "cursus_users") = false →
   absent (read (first_of u "cursus_users") "cursus") = false →
   ∃ props,
     createUserSummary u = ([], Normal (JObj props))
     ∧ own_property props "isStaff" = JBool false
     ∧ own_property props "login" = read u "login"
     ∧ own_property props "campus" = read (first_of u "campus") "name"
     ∧ own_property props "cursus"
       = read (read (first_of u "cursus_users") "cursus") "name"
     ∧ own_property props "level" = read (first_of u "cursus_users") "level")
  ∧ (absent (first_of u "campus") = true
     ∨ absent (first_of u "cursus_users") = true
     ∨ absent (read (first_of u "cursus_users") "cursus") = true →
     ∃ e, createUserSummary u = ([], Throw e)).
Proof.
  intros Hv. destruct (eligible_parts _ Hv) as (Hu & Hstaff & Hcu & Hca).
  unfold createUserSummary.
  rewrite (getPrimaryCampus_closed _ Hu), (getCurrentLevel_closed _ Hu),
    (getPrimaryCursus_closed _ Hu), Hcu, Hca.
  rewrite !(get_prop_truthy _ _ Hu). simpl.
  unfold or_false. rewrite Hstaff.
  set (campus0 := first_of u "campus").
  set (cursus0 := first_of u "cursus_users").
  split.
  - intros H1 H2 H3.
    rewrite (get_prop_present _ "name" H1), (get_prop_present _ "cursus" H2),
      (get_prop_present _ "level" H2). simpl.
    rewrite (get_prop_present _ "name" H3). simpl.
    eexists. split; [reflexivity|]. repeat split.
  - intros [H|[H|H]].
    + destruct campus0; try discriminate; simpl; eauto.
    + destruct (get_prop campus0 "name"); simpl; [|eauto].
      destruct cursus0; try discriminate; simpl; eauto.
    + destruct (get_prop campus0 "name"); simpl; [|eauto].
      destruct (get_prop cursus0 "cursus") as [c|] eqn:Hc; simpl; [|eauto].
      unfold read in H. rewrite Hc in H.
      destruct c; try discriminate; simpl; eauto.
Qed.

Lemma createUserSummary_accepted_witness :
  (∃ props,
     createUserSummary full_fixture = ([], Normal (JObj props))
     ∧ own_property props "isStaff" = JBool false)
  ∧ ∃ e, createUserSummary fixture = ([], Throw e).
Proof.
  split.
  - destruct (proj1 (createUserSummary_accepted full_fixture eq_refl)
                eq_refl eq_refl eq_refl) as (props & H1 & H2 & _).
    eauto.
  - apply (proj2 (createUserSummary_accepted fixture eq_refl)).
    right. right. reflexivity.
Defined.

(** X9. [add42Role] never throws: it answers [false] when the role is not
    in the cache, without calling Discord, and when [roles.add] is rejected;
    it answers [true] only after [roles.add] succeeded; and it calls
    [roles.add] at most once. *)
Theorem add42Role_never_throws (d : Discord) (memberId : string) :
  ∃ tr b,
    add42Role d memberId = (tr, Normal b)
    ∧ (b = true ↔ roles_cache_get d = true ∧ roles_add d memberId = Normal tt)
    ∧ (grant_calls tr ≤ 1)%nat
    ∧ (roles_cache_get d = false → tr = [])
    ∧ (roles_cache_get d = true → tr = [RolesAdd memberId]).
Proof.
  unfold add42Role. destruct (roles_cache_get d); simpl.
  - destruct (roles_add d memberId) as [[]|e]; simpl; eexists _, _;
      (split; [reflexivity|]); repeat split; try congruence; auto;
      try (intros [_ ?]; congruence).
  - eexists _, _. split; [reflexivity|]. repeat split; try congruence; auto.
    intros [? _]. congruence.
Qed.

Lemma add42Role_never_throws_witness :
  ∃ tr b, add42Role (discord (world_with fixture)) "1001" = (tr, Normal b)
          ∧ b = true ∧ tr = [RolesAdd "1001"].
Proof.
  destruct (add42Role_never_throws (discord (world_with fixture)) "1001")
    as (tr & b & H & Hb & _ & _ & Htr).
  exists tr, b. split; [exact H|]. split.
  - apply Hb. split; reflexivity.
  - apply Htr. reflexivity.
Defined.


End ProfileFacts.

(** ** Isolation and grant safety over runs *)

Section RunSafety.

Import Server Run Claims FortyTwoAPI Safety Utils.

Lemma grant_calls_app (a b : list Effect) :
  grant_calls (a ++ b) = (grant_calls a + grant_calls b)%nat.
Proof. unfold grant_calls. by rewrite List.filter_app, length_app. Qed.

Lemma harmless_no_grant (tr : list Effect) :
  forallb harmless tr = true → grant_calls tr = 0%nat.
Proof.
  intros H. rewrite <- (app_nil_r tr). by rewrite harmless_grant_calls.
Qed.

Lemma grant_in_trace (uid : string) (tr : list Effect) :
  RolesAdd uid ∈ tr → grant_calls tr ≠ 0%nat.
Proof.
  induction tr as [|e tr IH]; intros Hin.
  - by apply elem_of_nil in Hin.
  - apply elem_of_cons in Hin as [<-|Hin]; [unfold grant_calls; simpl; lia|].
    specialize (IH Hin). unfold grant_calls in *. simpl.
    destruct (is_grant e); simpl; lia.
Qed.

Lemma handle_trace (w : World) (e : Event) (reg : Registry) :
  trace (handle w e reg)
  = match e with
    | GuildMemberAdd member state now => trace (guildMemberAdd w member state now reg)
    | AuthCallback q => trace (auth_callback w q reg)
    | RulesAccept q => trace (rules_accept w q reg)
    | RulesDecline q => trace (rules_decline q reg)
    | CleanupTick now => []
    end.
Proof.
  destruct e; unfold handle.
  - apply (registry_bind_ret _ (fun _ => None)).
  - apply (registry_bind_ret _ Some).
  - apply (registry_bind_ret _ Some).
  - apply (registry_bind_ret _ Some).
  - apply (registry_bind_ret (cleanup_tick now) (fun _ => None)).
Qed.

Lemma handle_registry (w : World) (e : Event) (reg : Registry) :
  registry (handle w e reg)
  = match e with
    | GuildMemberAdd member state now => registry (guildMemberAdd w member state now reg)
    | AuthCallback q => registry (auth_callback w q reg)
    | RulesAccept q => registry (rules_accept w q reg)
    | RulesDecline q => registry (rules_decline q reg)
    | CleanupTick now => (cleanupExpiredVerifications now reg None).1
    end.
Proof.
  destruct e; unfold handle.
  - apply (registry_bind_ret _ (fun _ => None)).
  - apply (registry_bind_ret _ Some).
  - apply (registry_bind_ret _ Some).
  - apply (registry_bind_ret _ Some).
  - apply (registry_bind_ret (cleanup_tick now) (fun _ => None)).
Qed.

(** What the accept handler does, by cases: nothing before the record is
    found waiting for consent, and afterwards the deletion of the record
    with at most one grant, made for the user the record names. *)
Lemma rules_accept_cases (w : World) (q : Query) (reg : Registry) :
  let o := rules_accept w q reg in
  (registry o = reg ∧ trace o = [])
  ∨ ∃ t v, query_state q = Some t ∧ reg !! t = Some v
           ∧ step_is_not_rules_pending v = false
           ∧ registry o = delete t reg
           ∧ (trace o = [MapDelete t]
              ∨ trace o = [MembersFetch (discordUserId v); MapDelete t]
              ∨ trace o = [MembersFetch (discordUserId v);
                           RolesAdd (discordUserId v); MapDelete t]
              ∨ trace o = [MembersFetch (discordUserId v);
                           RolesAdd (discordUserId v);
                           MemberSend (discordUserId v); MapDelete t]).
Proof.
  unfold rules_accept. destruct q as [qc [t|] qe]; simpl; [|by left].
  destruct (String.eqb t ""); simpl; [by left|].
  unfold try_catch, bind, lift, completed, await, throw, ret, map_get, map_delete.
  simpl. destruct (reg !! t) as [v|] eqn:Hv; simpl; [|by left].
  destruct (step_is_not_rules_pending v) eqn:Hstep; simpl; [by left|].
  destruct (userData_prop v "login"); simpl; [|by left].
  destruct (userData_prop v "displayname"); simpl; [|by left].
  right. exists t, v. do 3 (split; [done|]).
  destruct (guilds_cache_get (discord w)); simpl; [|by auto].
  destruct (members_fetch (discord w) (discordUserId v)) as [[|]|e1]; simpl;
    [|by auto..].
  destruct (roles_cache_get (discord w)); simpl; [|by auto].
  destruct (bot_member_cached (discord w)); simpl; [|by auto].
  destruct (roles_add (discord w) (discordUserId v)) as [[]|e2]; simpl;
    [|by auto 6].
  destruct (member_send (discord w) (discordUserId v)) as [[]|e3]; simpl;
    by auto 6.
Qed.

(** X11. A request or a join only touches the record of the state it
    carries: the record of every other token is left exactly as it was. *)
Theorem other_tokens_untouched (w : World) (e : Event) (reg : Registry)
    (k : string) :
  is_sweep e = false → event_state e ≠ Some k →
  registry (handle w e reg) !! k = reg !! k.
Proof.
  intros Hsweep Hk. rewrite handle_registry.
  destruct e as [member state now|q|q|q|now]; simpl in *; [| | | |discriminate].
  - destruct (guildMemberAdd_registry w member state now reg)
      as [[-> _]|(v & tr & _ & _ & -> & _)]; [done|].
    apply lookup_insert_ne. congruence.
  - destruct (auth_callback_cases w q reg)
      as [[-> _]|(t & v & Hq & Hv & [[msg (-> & _)]|[u [(-> & _) _]]])].
    + done.
    + apply lookup_delete_ne. congruence.
    + apply lookup_insert_ne. congruence.
  - destruct (rules_accept_cases w q reg)
      as [[-> _]|(t & v & Hq & _ & _ & -> & _)]; [done|].
    apply lookup_delete_ne. congruence.
  - destruct q as [qc [t|] qe]; simpl in *.
    + destruct (rules_decline_registry (mkQuery qc (Some t) qe) reg)
        as [[-> | ->] _]; [done|]. simpl. apply lookup_delete_ne. congruence.
    + reflexivity.
Qed.

Lemma other_tokens_untouched_witness :
  registry (handle (world_with fixture) (RulesDecline consent_query)
              (<["other" := pending]> registry_consenting)) !! "other"
  = Some pending.
Proof.
  rewrite (other_tokens_untouched (world_with fixture) (RulesDecline consent_query)
             (<["other" := pending]> registry_consenting) "other"
             eq_refl ltac:(discriminate)).
  reflexivity.
Defined.

(** X12. Only a join adds a record: after any other event every token in
    the registry was in it before, so the registry has not grown. *)
Theorem only_joins_create (w : World) (e : Event) (reg : Registry) :
  is_join e = false →
  dom (registry (handle w e reg)) ⊆ dom reg
  ∧ (size (registry (handle w e reg)) ≤ size reg)%nat.
Proof.
  intros Hjoin.
  assert (dom (registry (handle w e reg)) ⊆ dom reg) as Hdom.
  { intros k Hk. apply elem_of_dom in Hk as [v' Hv']. apply elem_of_dom.
    destruct (handle_change w e reg k)
      as [Heq|Hgone|v Hc Hv Hstep|q v u -> Hq Hv Hvu Hchecked].
    - rewrite <- Heq. eauto.
    - congruence.
    - destruct e; simpl in *; discriminate.
    - eauto. }
  split; [exact Hdom|].
  rewrite <- !size_dom. by apply subseteq_size.
Qed.

Lemma only_joins_create_witness :
  (size (registry (handle (world_with fixture) (AuthCallback callback_query)
                     registry_pending)) ≤ size registry_pending)%nat.
Proof.
  exact (proj2 (only_joins_create (world_with fixture) (AuthCallback callback_query)
                  registry_pending eq_refl)).
Defined.

(** X13. The accept handler calls [roles.add] at most once, and only for a
    record that is waiting for consent: the grant goes to the user the
    record names, and the record is deleted in the same request, so no
    later request can grant for it again. *)
Theorem rules_accept_grants_once (w : World) (q : Query) (reg : Registry) :
  (grant_calls (trace (rules_accept w q reg)) ≤ 1)%nat
  ∧ ∀ uid, RolesAdd uid ∈ trace (rules_accept w q reg) →
      ∃ t v, query_state q = Some t ∧ reg !! t = Some v
             ∧ step v = Some "rules_pending"
             ∧ uid = discordUserId v
             ∧ registry (rules_accept w q reg) = delete t reg
             ∧ registry (rules_accept w q reg) !! t = None.
Proof.
  destruct (rules_accept_cases w q reg)
    as [[_ Htr]|(t & v & Hq & Hv & Hstep & Hreg & Htr)].
  - rewrite Htr. split; [unfold grant_calls; simpl; lia|].
    intros uid Hin. by apply elem_of_nil in Hin.
  - assert (step v = Some "rules_pending") as Hs.
    { unfold step_is_not_rules_pending in Hstep.
      destruct (step v) as [s|]; [|discriminate].
      apply negb_false_iff, String.eqb_eq in Hstep. by subst. }
    split.
    + destruct Htr as [-> | [-> | [-> | ->]]]; unfold grant_calls; simpl; lia.
    + intros uid Hin. exists t, v. rewrite Hreg.
      repeat split; auto; [|apply lookup_delete_eq].
      destruct Htr as [Htr | [Htr | [Htr | Htr]]]; rewrite Htr in Hin;
        repeat (apply elem_of_cons in Hin as [Hin|Hin]; [congruence|]);
        by apply elem_of_nil in Hin.
Qed.

Lemma rules_accept_grants_once_witness :
  ∃ t v, query_state consent_query = Some t
         ∧ registry_consenting !! t = Some v
         ∧ step v = Some "rules_pending"
         ∧ "1001" = discordUserId v
         ∧ registry (rules_accept (world_with fixture) consent_query
                       registry_consenting) = delete t registry_consenting
         ∧ registry (rules_accept (world_with fixture) consent_query
                       registry_consenting) !! t = None.
Proof.
  apply (proj2 (rules_accept_grants_once (world_with fixture) consent_query
                  registry_consenting) "1001").
  assert (trace (rules_accept (world_with fixture) consent_query
                   registry_consenting)
          = [MembersFetch "1001"; RolesAdd "1001"; MemberSend "1001";
             MapDelete token]) as -> by reflexivity.
  apply elem_of_cons. right. apply elem_of_cons. by left.
Defined.

End RunSafety.

Section Sessions.

Import Server Run Claims FortyTwoAPI Safety Utils.

Lemma handle_vetted (w : World) (e : Event) (reg : Registry) :
  vetted reg → vetted (registry (handle w e reg)).
Proof.
  intros Hvet t v' Hv' Hstep.
  destruct (handle_change w e reg t)
    as [Heq|Hgone|v Hc Hv Hnone|q v u -> Hq Hv Hvu Hchecked].
  - rewrite Heq in Hv'. eauto.
  - congruence.
  - assert (v' = v) as -> by congruence.
    unfold step_is_not_rules_pending in Hstep. by rewrite Hnone in Hstep.
  - rewrite Hvu in Hv'. injection Hv' as <-. exists u. split; [reflexivity|].
    by destruct Hchecked as (code & tokenResponse & _ & _ & _ & Hvalid).
Qed.

Lemma run_vetted (events : list (World * Event)) (reg : Registry) :
  vetted reg → vetted (run events reg).1.
Proof.
  revert reg. induction events as [|[w e] events IH]; intros reg Hvet; [done|].
  simpl. specialize (IH _ (handle_vetted w e reg Hvet)).
  by destruct (run events (registry (handle w e reg))).
Qed.

(** X14. Whatever has happened since the process started, a call of
    [roles.add] is made only by the accept handler, for the user named by a
    record whose attached claims [validateStudentStatus] accepted: no run
    grants the role on claims that were rejected or never fetched. *)
Theorem grants_only_on_accepted_claims (events : list (World * Event))
    (w : World) (e : Event) (uid : string) :
  RolesAdd uid ∈ trace (handle w e (run events ∅).1) →
  ∃ q t v u,
    e = RulesAccept q ∧ query_state q = Some t
    ∧ (run events ∅).1 !! t = Some v
    ∧ discordUserId v = uid
    ∧ userData v = Some u
    ∧ verdict u = Normal true.
Proof.
  assert (vetted (run events ∅).1) as Hvet.
  { apply run_vetted. intros t v Hv. by rewrite lookup_empty in Hv. }
  revert Hvet. generalize (run events ∅).1. intros reg Hvet Hin.
  rewrite handle_trace in Hin.
  destruct e as [member state now|q|q|q|now].
  - apply grant_in_trace in Hin. exfalso. apply Hin.
    destruct (guildMemberAdd_registry w member state now reg)
      as [[_ ->]|(v & tr & _ & _ & _ & -> & Htr)]; [done|].
    change (MapSet state v :: tr) with ([MapSet state v] ++ tr).
    rewrite grant_calls_app, (harmless_no_grant tr Htr). reflexivity.
  - apply grant_in_trace in Hin. exfalso. apply Hin.
    apply auth_callback_never_grants.
  - destruct (rules_accept_cases w q reg)
      as [[_ Htr]|(t & v & Hq & Hv & Hstep & _ & Htr)].
    + rewrite Htr in Hin. by apply elem_of_nil in Hin.
    + destruct (Hvet t v Hv Hstep) as (u & Hu & Hverdict).
      exists q, t, v, u. repeat split; auto.
      destruct Htr as [Htr | [Htr | [Htr | Htr]]]; rewrite Htr in Hin;
        repeat (apply elem_of_cons in Hin as [Hin|Hin]; [congruence|]);
        by apply elem_of_nil in Hin.
  - apply grant_in_trace in Hin. exfalso. apply Hin.
    apply rules_decline_never_grants.
  - by apply elem_of_nil in Hin.
Qed.

Lemma grants_only_on_accepted_claims_witness :
  ∃ q t v u,
    RulesAccept consent_query = RulesAccept q ∧ query_state q = Some t
    ∧ (run [join_event; (world_with fixture, AuthCallback callback_query)] ∅).1
        !! t = Some v
    ∧ discordUserId v = "1001"
    ∧ userData v = Some u
    ∧ verdict u = Normal true.
Proof.
  apply (grants_only_on_accepted_claims
           [join_event; (world_with fixture, AuthCallback callback_query)]
           (world_with fixture) (RulesAccept consent_query) "1001").
  assert (trace (handle (world_with fixture) (RulesAccept consent_query)
                   (run [join_event;
                         (world_with fixture, AuthCallback callback_query)] ∅).1)
          = [MembersFetch "1001"; RolesAdd "1001"; MemberSend "1001";
             MapDelete token]) as -> by reflexivity.
  apply elem_of_cons. right. apply elem_of_cons. by left.
Defined.

(** X15. No event other than the join that creates it changes who a
    record is for or when it was created: the user id, the user name and the
    timestamp survive the identity callback. So confirming the identity does
    not extend the ten minutes: a sweep later than that after the join
    removes the record, waiting for consent or not. *)
Theorem record_identity_kept (w : World) (e : Event) (reg : Registry)
    (t : string) (v v' : Verification) :
  creates t e = false →
  reg !! t = Some v → registry (handle w e reg) !! t = Some v' →
  discordUserId v' = discordUserId v
  ∧ discordUsername v' = discordUsername v
  ∧ timestamp v' = timestamp v
  ∧ ∀ now, now - timestamp v > default_maxAge →
      (cleanupExpiredVerifications now (registry (handle w e reg)) None).1 !! t
      = None.
Proof.
  intros Hc Hv Hv'.
  assert (discordUserId v' = discordUserId v
          ∧ discordUsername v' = discordUsername v
          ∧ timestamp v' = timestamp v) as (H1 & H2 & H3).
  { destruct (handle_change w e reg t)
      as [Heq|Hgone|v0 Hc0 Hv0 Hnone|q v0 u -> Hq Hv0 Hvu Hchecked].
    - rewrite Heq, Hv in Hv'. by injection Hv' as <-.
    - congruence.
    - congruence.
    - rewrite Hvu in Hv'. injection Hv' as <-.
      assert (v0 = v) as -> by congruence. done. }
  repeat split; auto.
  intros now Hold. eapply cleanup_removes; [exact Hv'|]. simpl. lia.
Qed.

Lemma record_identity_kept_witness :
  (cleanupExpiredVerifications (1700000000000 + 600001)
     (registry (handle (world_with fixture) (AuthCallback callback_query)
                  registry_pending)) None).1 !! token = None.
Proof.
  apply (proj2 (proj2 (proj2 (record_identity_kept (world_with fixture)
           (AuthCallback callback_query) registry_pending token pending
           consenting eq_refl eq_refl eq_refl)))).
  unfold pending, default_maxAge. simpl. lia.
Defined.

(** X16. A join from another guild, or of a member who already has the
    role, does nothing. Any other join stores the record under the
    generated state before the welcome message is attempted, and the record
    stays whatever becomes of the message: when the direct message fails the
    system channel is tried if there is one, and no grant is made. *)
Theorem guildMemberAdd_stores (w : World) (member : Member) (state : string)
    (now : Z) (reg : Registry) :
  ((in_configured_guild member = false ∨ has_42_role member = true) →
   guildMemberAdd w member state now reg = mkOutcome reg [] (Normal tt))
  ∧ (in_configured_guild member = true → has_42_role member = false →
     registry (guildMemberAdd w member state now reg)
     = <[state := fresh_record member now]> reg
     ∧ grant_calls (trace (guildMemberAdd w member state now reg)) = 0%nat
     ∧ (member_send (discord w) (user_id member) = Normal tt →
        guildMemberAdd w member state now reg
        = mkOutcome (<[state := fresh_record member now]> reg)
            [MapSet state (fresh_record member now); MemberSend (user_id member)]
            (Normal tt))
     ∧ (∀ error, member_send (discord w) (user_id member) = Throw error →
        guildMemberAdd w member state now reg
        = match system_channel (discord w) with
          | Some sent =>
              mkOutcome (<[state := fresh_record member now]> reg)
                [MapSet state (fresh_record member now);
                 MemberSend (user_id member);
                 SystemChannelSend (user_id member)] sent
          | None =>
              mkOutcome (<[state := fresh_record member now]> reg)
                [MapSet state (fresh_record member now);
                 MemberSend (user_id member)] (Normal tt)
          end)).
Proof.
  unfold guildMemberAdd, fresh_record. split.
  - intros [-> | H]; [reflexivity|]. rewrite H.
    by destruct (in_configured_guild member).
  - intros -> ->. simpl.
    unfold try_catch, bind, await, ret, map_set. simpl.
    destruct (member_send (discord w) (user_id member)) as [[]|e1]; simpl.
    + repeat split; congruence.
    + destruct (system_channel (discord w)) as [[[]|e2]|]; simpl;
        repeat split; congruence.
Qed.

Lemma guildMemberAdd_stores_witness :
  registry (guildMemberAdd (world_with fixture) joining token 1700000000000 ∅)
  = <[token := fresh_record joining 1700000000000]> ∅.
Proof.
  exact (proj1 (proj2 (guildMemberAdd_stores (world_with fixture) joining token
                         1700000000000 ∅) eq_refl eq_refl)).
Defined.

End Sessions.

Section WholeSession.

Import Server Run Claims FortyTwoAPI Safety.

Lemma run_cons (w : World) (e : Event) (rest : list (World * Event))
    (reg : Registry) :
  run ((w, e) :: rest) reg
  = ((run rest (registry (handle w e reg))).1,
     trace (handle w e reg) ++ (run rest (registry (handle w e reg))).2).
Proof. simpl. by destruct (run rest (registry (handle w e reg))). Qed.

Lemma run_nil (reg : Registry) : run [] reg = (reg, []).
Proof. reflexivity. Qed.

Lemma join_outcome (w : World) (member : Member) (state : string) (now : Z)
    (reg : Registry) :
  in_configured_guild member = true → has_42_role member = false →
  registry (guildMemberAdd w member state now reg)
  = <[state := fresh_record member now]> reg
  ∧ grant_calls (trace (guildMemberAdd w member state now reg)) = 0%nat.
Proof.
  intros Hg Hr. unfold guildMemberAdd, fresh_record. rewrite Hg, Hr. simpl.
  unfold try_catch, bind, await, ret, map_set. simpl.
  destruct (member_send (discord w) (user_id member)) as [[]|e1]; simpl; [done|].
  by destruct (system_channel (discord w)) as [[[]|e2]|].
Qed.

Lemma callback_confirms (w : World) (code t : string) (reg : Registry)
    (v : Verification) (u : JsVal) :
  code ≠ "" → t ≠ "" → reg !! t = Some v →
  identity_checked w (mkQuery (Some code) (Some t) None) u →
  guilds_cache_get (discord w) = true →
  members_fetch (discord w) (discordUserId v) = Normal true →
  callback_confirmed (auth_callback w (mkQuery (Some code) (Some t) None) reg)
    t reg v u.
Proof.
  intros Hc Ht Hv (code' & tokenResponse & Hq & Hex & Hui & Hval) Hg Hm.
  simpl in Hq. injection Hq as <-.
  pose proof (auth_callback_live w code t None reg v eq_refl Hc Ht Hv) as Hpost.
  unfold callback_post in Hpost. by rewrite Hex, Hui, Hval, Hg, Hm in Hpost.
Qed.

Lemma rules_accept_success (w : World) (qc qe : option string) (t : string)
    (reg : Registry) (v : Verification) :
  t ≠ "" → reg !! t = Some v → consent_pending v →
  guilds_cache_get (discord w) = true →
  members_fetch (discord w) (discordUserId v) = Normal true →
  roles_cache_get (discord w) = true →
  bot_member_cached (discord w) = true →
  roles_add (discord w) (discordUserId v) = Normal tt →
  rules_accept w (mkQuery qc (Some t) qe) reg
  = mkOutcome (delete t reg)
      [MembersFetch (discordUserId v); RolesAdd (discordUserId v);
       MemberSend (discordUserId v); MapDelete t]
      (Normal SuccessPage).
Proof.
  intros Ht Hv Hpending Hg Hm Hr Hb Ha. apply String.eqb_neq in Ht.
  destruct (consent_pending_reads v "login" Hpending) as [Hstep [x1 Hx1]].
  destruct (consent_pending_reads v "displayname" Hpending) as [_ [x2 Hx2]].
  unfold rules_accept. simpl. rewrite Ht. simpl.
  unfold try_catch, bind, lift, completed, await, throw, ret, map_get, map_delete.
  simpl. rewrite Hv, Hstep, Hx1, Hx2. simpl. rewrite Hg. simpl.
  rewrite Hm. simpl. rewrite Hr, Hb. simpl. rewrite Ha. simpl.
  by destruct (member_send (discord w) (discordUserId v)) as [[]|e].
Qed.

Lemma rules_decline_success (qc qe : option string) (t : string)
    (reg : Registry) (v : Verification) :
  t ≠ "" → reg !! t = Some v → consent_pending v →
  rules_decline (mkQuery qc (Some t) qe) reg
  = mkOutcome (delete t reg) [MapDelete t] (Normal DeclinedPage).
Proof.
  intros Ht Hv Hpending. apply String.eqb_neq in Ht.
  destruct (consent_pending_reads v "login" Hpending) as [Hstep [x1 Hx1]].
  destruct (consent_pending_reads v "displayname" Hpending) as [_ [x2 Hx2]].
  unfold rules_decline. simpl. rewrite Ht. simpl.
  unfold bind, lift, completed, ret, map_get, map_delete.
  simpl. by rewrite Hv, Hstep, Hx1, Hx2.
Qed.

(** X17. A whole verification: a member joins under a fresh state, the
    identity callback for that state passes the checks, and the member
    follows one of the two links of the rules page. With the accept link the
    run makes exactly one grant, for the member who joined; with the decline
    link it makes none; either way the registry ends as it was before the
    join. *)
Theorem verification_session (w1 w2 w3 : World) (member : Member)
    (t code : string) (now : Z) (u : JsVal) (reg : Registry) :
  in_configured_guild member = true → has_42_role member = false →
  t ≠ "" → code ≠ "" → reg !! t = None →
  identity_checked w2 (mkQuery (Some code) (Some t) None) u →
  guilds_cache_get (discord w2) = true →
  members_fetch (discord w2) (user_id member) = Normal true →
  guilds_cache_get (discord w3) = true →
  members_fetch (discord w3) (user_id member) = Normal true →
  roles_cache_get (discord w3) = true →
  bot_member_cached (discord w3) = true →
  roles_add (discord w3) (user_id member) = Normal tt →
  let join := (w1, GuildMemberAdd member t now) in
  let callback := (w2, AuthCallback (mkQuery (Some code) (Some t) None)) in
  let accept := (w3, RulesAccept (mkQuery None (Some t) None)) in
  let decline := (w3, RulesDecline (mkQuery None (Some t) None)) in
  page_links (RulesPage t)
  = ["/auth/rules/accept?state=" +:+ t; "/auth/rules/decline?state=" +:+ t]
  ∧ (run [join; callback] reg).1
    = <[t := rules_pending_record (fresh_record member now) u]> reg
  ∧ (run [join; callback; accept] reg).1 = reg
  ∧ grant_calls (run [join; callback; accept] reg).2 = 1%nat
  ∧ RolesAdd (user_id member) ∈ (run [join; callback; accept] reg).2
  ∧ (run [join; callback; decline] reg).1 = reg
  ∧ grant_calls (run [join; callback; decline] reg).2 = 0%nat.
Proof.
  intros Hguild Hrole Ht Hc Hfresh Hchecked Hg2 Hm2 Hg3 Hm3 Hr3 Hb3 Ha3.
  cbv zeta.
  destruct (join_outcome w1 member t now reg Hguild Hrole) as [Hreg1 Hng1].
  set (reg1 := <[t := fresh_record member now]> reg) in *.
  assert (reg1 !! t = Some (fresh_record member now)) as Hv1
    by apply lookup_insert_eq.
  destruct (callback_confirms w2 code t reg1 _ u Hc Ht Hv1 Hchecked Hg2 Hm2)
    as (Hreg2 & _ & pre & Htr2 & Hpre).
  set (v2 := rules_pending_record (fresh_record member now) u) in *.
  set (reg2 := <[t := v2]> reg1) in *.
  assert (reg2 !! t = Some v2) as Hv2 by apply lookup_insert_eq.
  assert (consent_pending v2) as Hpending.
  { split; [reflexivity|]. exists u. split; [reflexivity|].
    destruct Hchecked as (? & ? & _ & _ & _ & Hval).
    apply verdict_true in Hval as [Hval _]. unfold eligible in Hval.
    rewrite !andb_true_iff in Hval. tauto. }
  assert (delete t reg2 = reg) as Hback.
  { unfold reg2, reg1. rewrite delete_insert_eq. by apply delete_insert_id. }
  assert (reg2 = <[t := v2]> reg) as Hreg2'.
  { unfold reg2, reg1. apply insert_insert_eq. }
  pose proof (rules_accept_success w3 None None t reg2 v2 Ht Hv2 Hpending
                Hg3 Hm3 Hr3 Hb3 Ha3) as Hacc.
  pose proof (rules_decline_success None None t reg2 v2 Ht Hv2 Hpending) as Hdec.
  rewrite !run_cons, !run_nil. cbn [fst snd].
  rewrite !handle_registry, !handle_trace. cbn [fst snd].
  rewrite Hreg1. fold reg1. rewrite Hreg2, Htr2. fold reg2.
  rewrite Hacc, Hdec. cbn [registry trace]. rewrite Hback, !app_nil_r.
  repeat split; auto.
  - rewrite !grant_calls_app, Hng1, (harmless_no_grant pre Hpre). reflexivity.
  - apply elem_of_app. right. apply elem_of_app. right.
    apply elem_of_cons. right. apply elem_of_cons. by left.
  - rewrite !grant_calls_app, Hng1, (harmless_no_grant pre Hpre). reflexivity.
Qed.

Lemma verification_session_witness :
  (run [join_event; (world_with fixture, AuthCallback callback_query);
        (world_with fixture, RulesAccept (mkQuery None (Some token) None))] ∅).1
  = ∅
  ∧ grant_calls
      (run [join_event; (world_with fixture, AuthCallback callback_query);
            (world_with fixture, RulesAccept (mkQuery None (Some token) None))]
         ∅).2 = 1%nat.
Proof.
  assert (identity_checked (world_with fixture) callback_query fixture) as Hid.
  { exists "abc", (JObj [("access_token", JStr "at-1")]). repeat split. }
  pose proof (verification_session (world_with fixture) (world_with fixture)
                (world_with fixture) joining token "abc" 1700000000000 fixture ∅
                eq_refl eq_refl ltac:(discriminate) ltac:(discriminate) eq_refl
                Hid eq_refl eq_refl eq_refl eq_refl eq_refl eq_refl eq_refl)
    as (_ & _ & H1 & H2 & _).
  split; [exact H1 | exact H2].
Defined.

End WholeSession.

(** ** Manual verification *)

Section ManualVerification.

Import Claims FortyTwoAPI Profile Commands.

Lemma getUserByLogin_cases (w : CommandWorld) (login : string) :
  (∃ u, getUserByLogin w login = ([HttpGetUser login], Normal u)
        ∧ absent u = false)
  ∨ ∃ e, getUserByLogin w login = ([HttpGetUser login], Throw e).
Proof.
  unfold getUserByLogin, cmd_try, cmd_bind, cmd_await, cmd_ret, cmd_throw.
  destruct (axios_get_user w login) as [d|e]; simpl; [|eauto].
  destruct (get_prop d "login") eqn:E; simpl; [|eauto].
  destruct (get_prop d "displayname"); simpl; [|eauto].
  left. exists d. split; [reflexivity | by eapply get_prop_normal].
Qed.

Ltac answer w :=
  repeat match goal with
         | |- context [edit_reply w ?r] =>
             destruct (edit_reply w r) as [[]|?]; simpl
         end.

Ltac tally :=
  unfold count in *; simpl in *;
  repeat (rewrite ?List.filter_app, ?length_app in *; simpl in * );
  repeat split; intros; eauto; try lia; try discriminate.

Ltac absent_from_trace :=
  match goal with
  | H : _ ∈ _ |- _ =>
      repeat (apply elem_of_cons in H as [H|H]; [discriminate|]);
      by apply elem_of_nil in H
  end.

Lemma eligible_truthy (u : JsVal) :
  eligible u = true →
  to_boolean u = true ∧ has_entries (read u "cursus_users") = true
  ∧ has_entries (read u "campus") = true.
Proof.
  unfold eligible. rewrite !andb_true_iff. tauto.
Qed.

(** X18. The verify command calls [roles.add] at most once and never
    removes a role. It grants only when the member was fetched without the
    role, the reply was deferred, the role is in the cache and the provider
    returned, for the given login, claims that [validateStudentStatus]
    accepts. Once the reply is deferred, every path ends with at least one
    [editReply]. *)
Theorem handleVerifyCommand_grants (w : CommandWorld)
    (addFields : JsVal → JsVal → Completion unit) (i : Interaction) :
  (count is_role_add (handleVerifyCommand w addFields i).1 ≤ 1)%nat
  ∧ count is_role_remove (handleVerifyCommand w addFields i).1 = 0%nat
  ∧ (count is_role_add (handleVerifyCommand w addFields i).1 = 1%nat →
     guild_members_fetch w (target_id i) = Normal false
     ∧ defer_reply w = Normal tt
     ∧ roles_cache_get (guild w) = true
     ∧ ∃ u, (getUserByLogin w (option_login i)).2 = Normal u
            ∧ verdict u = Normal true)
  ∧ ((∃ hasRole, guild_members_fetch w (target_id i) = Normal hasRole) →
     defer_reply w = Normal tt →
     (1 ≤ count is_edit_reply (handleVerifyCommand w addFields i).1)%nat).
Proof.
  unfold handleVerifyCommand, cmd_try, cmd_bind, cmd_await, cmd_ret.
  destruct (guild_members_fetch w (target_id i)) as [hasRole|e0] eqn:Hfetch;
    simpl.
  2:{ tally. by destruct H. }
  destruct (defer_reply w) as [[]|e1]; simpl; [|tally].
  destruct hasRole; simpl; [answer w; tally|].
  destruct (getUserByLogin_cases w (option_login i))
    as [(u & -> & Hu)|(e & ->)]; simpl; [|answer w; tally].
  rewrite !validateStudentStatus_closed. simpl.
  destruct (eligible u) eqn:Hel; simpl; [|answer w; tally].
  destruct (warning_fails u) eqn:Hwf; simpl; [answer w; tally|].
  assert (count is_role_add (Bot <$> pool_warning u) = 0%nat
          ∧ count is_role_remove (Bot <$> pool_warning u) = 0%nat
          ∧ count is_edit_reply (Bot <$> pool_warning u) = 0%nat)
    as (Hv1 & Hv2 & Hv3).
  { unfold pool_warning. by destruct (_ && _). }
  set (pw := Bot <$> pool_warning u) in *.
  destruct (eligible_truthy _ Hel) as (Htruthy & Hcu & Hca).
  assert (verdict u = Normal true) as Hverdict
    by (by rewrite verdict_closed, Hel, Hwf).
  unfold add42Role, bot, eval_try, eval_bind, emit, completed, eval_ret, eval_throw.
  rewrite (getPrimaryCampus_closed _ Htruthy), (getCurrentLevel_closed _ Htruthy),
    Hcu, Hca.
  unfold optional_toString.
  destruct (roles_cache_get (guild w)) eqn:Hrole; simpl; [|answer w; tally].
  destruct (roles_add (guild w) (target_id i)) as [[]|ea]; simpl;
    [|answer w; tally].
  destruct (get_prop (first_of u "campus") "name") as [campus|ec]; simpl;
    [|answer w; tally].
  destruct (get_prop (first_of u "cursus_users") "level") as [level|el]; simpl;
    [|answer w; tally].
  destruct (toString_throws level); simpl; [answer w; tally|].
  destruct (addFields campus level) as [[]|ev]; simpl; [|answer w; tally].
  answer w;
    try (destruct (user_send w (target_id i)) as [[]|es]; simpl); tally.
Qed.

Lemma handleVerifyCommand_grants_witness :
  guild_members_fetch (command_world full_fixture) (target_id verify_interaction)
  = Normal false
  ∧ defer_reply (command_world full_fixture) = Normal tt
  ∧ roles_cache_get (guild (command_world full_fixture)) = true
  ∧ ∃ u, (getUserByLogin (command_world full_fixture)
            (option_login verify_interaction)).2 = Normal u
         ∧ verdict u = Normal true.
Proof.
  apply (proj1 (proj2 (proj2 (handleVerifyCommand_grants
                                (command_world full_fixture)
                                (fun _ _ => Normal tt) verify_interaction)))).
  reflexivity.
Defined.

(** X19. The unverify command calls [roles.remove] at most once and never
    grants. It removes only when the member was fetched with the role and
    the role is in the cache, and it reports the removal only after
    [roles.remove] succeeded. Once the reply is deferred, every path ends
    with at least one [editReply]. *)
Theorem handleUnverifyCommand_removes (w : CommandWorld) (i : Interaction) :
  (count is_role_remove (handleUnverifyCommand w i).1 ≤ 1)%nat
  ∧ count is_role_add (handleUnverifyCommand w i).1 = 0%nat
  ∧ (count is_role_remove (handleUnverifyCommand w i).1 = 1%nat →
     guild_members_fetch w (target_id i) = Normal true
     ∧ roles_cache_get (guild w) = true)
  ∧ (EditReply (UnverifiedEmbed (target_tag i) (executor_tag i))
       ∈ (handleUnverifyCommand w i).1 →
     roles_remove w (target_id i) = Normal tt)
  ∧ ((∃ hasRole, guild_members_fetch w (target_id i) = Normal hasRole) →
     defer_reply w = Normal tt →
     (1 ≤ count is_edit_reply (handleUnverifyCommand w i).1)%nat).
Proof.
  unfold handleUnverifyCommand, remove42Role, cmd_try, cmd_bind, cmd_await,
    cmd_ret, cmd_throw.
  destruct (guild_members_fetch w (target_id i)) as [hasRole|e0] eqn:Hfetch;
    simpl.
  2:{ tally; [absent_from_trace | by destruct H]. }
  destruct (defer_reply w) as [[]|e1]; simpl; [|tally; absent_from_trace].
  destruct hasRole; simpl; [|answer w; tally; absent_from_trace].
  destruct (roles_cache_get (guild w)) eqn:Hrole; simpl;
    [|answer w; tally; absent_from_trace].
  destruct (roles_remove w (target_id i)) as [[]|er]; simpl;
    [|answer w; tally; absent_from_trace].
  answer w;
    try (destruct (user_send w (target_id i)) as [[]|es]; simpl); tally.
Qed.

Lemma handleUnverifyCommand_removes_witness :
  roles_remove
    {| guild_members_fetch := fun _ => Normal true;
       defer_reply := Normal tt;
       edit_reply := fun _ => Normal tt;
       axios_get_user := fun _ => Normal fixture;
       guild := discord (world_with fixture);
       roles_remove := fun _ => Normal tt;
       user_send := fun _ => Normal tt |} (target_id verify_interaction)
  = Normal tt.
Proof.
  apply (proj1 (proj2 (proj2 (proj2 (handleUnverifyCommand_removes
           {| guild_members_fetch := fun _ => Normal true;
              defer_reply := Normal tt;
              edit_reply := fun _ => Normal tt;
              axios_get_user := fun _ => Normal fixture;
              guild := discord (world_with fixture);
              roles_remove := fun _ => Normal tt;
              user_send := fun _ => Normal tt |} verify_interaction))))).
  apply elem_of_cons. right. apply elem_of_cons. right.
  apply elem_of_cons. right. apply elem_of_cons. by left.
Defined.

End ManualVerification.

(** ** Masking a string *)

Section MaskingStrings.

Import Debug.

Lemma lower_ascii_delimiter (c : ascii) :
  is_delimiter (lower_ascii c) = is_delimiter c.
Proof.
  destruct c as [[] [] [] [] [] [] [] []]; reflexivity.
Qed.

Lemma replace_scan_cons (c : ascii) (rest : string) :
  is_delimiter c = false →
  replace_from Scan (String c rest) = String c (replace_from Scan rest).
Proof. intros H. simpl. by rewrite H. Qed.

Lemma replace_scan_head (s : string) :
  match s with
  | EmptyString => replace_from Scan s = EmptyString
  | String c _ => ∃ r, replace_from Scan s = String c r
  end.
Proof.
  destruct s as [|c rest]; [reflexivity|]. simpl.
  destruct (is_delimiter c); [destruct (key_length rest)|]; eauto.
Qed.

Lemma prefix_ci_replace (w s : string) :
  plain w = true →
  prefix_ci w (replace_from Scan s) = prefix_ci w s.
Proof.
  revert s. induction w as [|a w IH]; intros s Hw; [reflexivity|].
  simpl in Hw. apply andb_true_iff in Hw as [Ha Hw].
  destruct s as [|c rest]; [reflexivity|].
  destruct (Ascii.eqb a (lower_ascii c)) eqn:E.
  - apply Ascii.eqb_eq in E.
    assert (is_delimiter c = false) as Hc.
    { rewrite <- lower_ascii_delimiter, <- E. by apply negb_true_iff. }
    rewrite replace_scan_cons by done. simpl. by rewrite IH.
  - pose proof (replace_scan_head (String c rest)) as [r ->].
    simpl. by rewrite E.
Qed.

Lemma key_length_replace (s : string) :
  key_length (replace_from Scan s) = key_length s.
Proof.
  unfold key_length, url_words. cbn [List.find].
  by rewrite !prefix_ci_replace.
Qed.

Lemma replace_skip (s : string) :
  replace_from Skip s = replace_from Scan (from_amp s).
Proof.
  induction s as [|c rest IH]; [reflexivity|].
  simpl. destruct (Ascii.eqb c "&"); [reflexivity | exact IH].
Qed.

Lemma from_amp_head (s : string) :
  from_amp s = EmptyString ∨ ∃ r, from_amp s = String "&" r.
Proof.
  induction s as [|c rest IH]; [by left|].
  simpl. destruct (Ascii.eqb c "&") eqn:E; [|exact IH].
  apply Ascii.eqb_eq in E. subst. right. eauto.
Qed.

Lemma from_amp_length (s : string) :
  (String.length (from_amp s) ≤ String.length s)%nat.
Proof.
  induction s as [|c rest IH]; [done|].
  simpl. destruct (Ascii.eqb c "&"); simpl; lia.
Qed.

Lemma append_cons (c : ascii) (p t : string) :
  String c p +:+ t = String c (p +:+ t).
Proof. reflexivity. Qed.

Lemma append_length (p t : string) :
  String.length (p +:+ t) = (String.length p + String.length t)%nat.
Proof.
  induction p as [|c p IH]; [done|]. rewrite append_cons. simpl. by rewrite IH.
Qed.

Lemma drop_append (p t : string) : drop (String.length p) (p +:+ t) = t.
Proof.
  induction p as [|c p IH]; [by destruct t|]. rewrite append_cons. exact IH.
Qed.

Lemma strip_Some (p s r : string) : strip p s = Some r → s = p +:+ r.
Proof.
  revert s. induction p as [|a p IH]; intros s H; simpl in *.
  - by destruct s; inversion H.
  - destruct s as [|c s]; [discriminate|].
    destruct (Ascii.eqb a c) eqn:E; [|discriminate].
    apply Ascii.eqb_eq in E. subst. rewrite append_cons. f_equal. by apply IH.
Qed.

Lemma strip_append (p r : string) : strip p (p +:+ r) = Some r.
Proof.
  induction p as [|a p IH]; [by destruct r|].
  rewrite append_cons. simpl. by rewrite Ascii.eqb_refl.
Qed.

Lemma holds_mask_inv (s : string) :
  holds_mask s = true →
  ∃ r, s = MASKED +:+ r ∧ (r = EmptyString ∨ ∃ r', r = String "&" r').
Proof.
  unfold holds_mask. destruct (strip MASKED s) as [r|] eqn:E; [|discriminate].
  apply strip_Some in E. intros H. exists r. split; [done|].
  destruct r as [|c r']; [by left|].
  apply Ascii.eqb_eq in H. subst. right. eauto.
Qed.

Lemma parameters_masked_plain (p t : string) :
  plain p = true → parameters_masked (p +:+ t) = parameters_masked t.
Proof.
  intros Hp. induction p as [|c p IH]; [reflexivity|].
  rewrite append_cons. simpl in *. apply andb_true_iff in Hp as [Hc Hp].
  apply negb_true_iff in Hc. rewrite Hc. simpl. auto.
Qed.

Lemma parameters_masked_suffix (p t : string) :
  parameters_masked (p +:+ t) = true → parameters_masked t = true.
Proof.
  induction p as [|c p IH]; [done|].
  rewrite append_cons. simpl. intros H. apply andb_true_iff in H as [_ H]. auto.
Qed.

Lemma from_amp_plain (p t : string) :
  plain p = true → from_amp (p +:+ t) = from_amp t.
Proof.
  intros Hp. induction p as [|c p IH]; [reflexivity|].
  rewrite append_cons. simpl in *. apply andb_true_iff in Hp as [Hc Hp].
  apply negb_true_iff in Hc. unfold is_delimiter in Hc.
  apply orb_false_iff in Hc as [_ Hc]. rewrite Hc. auto.
Qed.

(** A matched [word=]: the text splits after it, it holds no delimiter, and
    whatever follows it the same match is found. *)
Lemma prefix_ci_split (w s : string) :
  prefix_ci w s = true →
  ∃ p t, s = p +:+ t ∧ String.length p = String.length w
         ∧ (plain w = true → plain p = true)
         ∧ ∀ w' x, (String.length w' ≤ String.length w)%nat →
                   prefix_ci w' (p +:+ x) = prefix_ci w' s.
Proof.
  revert s. induction w as [|a w IH]; intros s H.
  - exists EmptyString, s.
    split; [reflexivity|]. split; [reflexivity|]. split; [done|].
    intros [|] x Hl; [reflexivity | simpl in Hl; lia].
  - destruct s as [|c s]; [discriminate|]. simpl in H.
    apply andb_true_iff in H as [Hc H].
    destruct (IH _ H) as (p & t & -> & Hlen & Hplain & Hsame).
    exists (String c p), t.
    split; [reflexivity|]. split; [|split].
    + simpl. by rewrite Hlen.
    + simpl. intros Hw. apply andb_true_iff in Hw as [Ha Hw].
      rewrite (Hplain Hw), andb_true_r.
      apply Ascii.eqb_eq in Hc. subst a.
      by rewrite lower_ascii_delimiter in Ha.
    + intros [|b w'] x Hl; [reflexivity|]. rewrite !append_cons. simpl in *.
      f_equal. apply Hsame. lia.
Qed.

Lemma key_length_split (s : string) (n : nat) :
  key_length s = Some n →
  ∃ p t, s = p +:+ t ∧ String.length p = n ∧ plain p = true
         ∧ (∃ c p', p = String c p')
         ∧ ∀ x, key_length (p +:+ x) = Some n.
Proof.
  unfold key_length, url_words. cbn [List.find].
  intros H.
  destruct (prefix_ci ("token" +:+ "=") s) eqn:E1;
    [|destruct (prefix_ci ("secret" +:+ "=") s) eqn:E2;
      [|destruct (prefix_ci ("password" +:+ "=") s) eqn:E3;
        [|destruct (prefix_ci ("authorization" +:+ "=") s) eqn:E4;
          [|discriminate]]]];
    injection H as <-;
    match goal with
    | E : prefix_ci _ s = true |- _ =>
        destruct (prefix_ci_split _ _ E) as (p & t & Hs & Hlen & Hplain & Hsame)
    end;
    exists p, t;
    (split; [exact Hs|]); (split; [exact Hlen|]);
    (split; [by apply Hplain|]);
    (split; [destruct p; [cbv in Hlen; discriminate | eauto]|]);
    intros x;
    rewrite ?(Hsame ("token" +:+ "=")), ?(Hsame ("secret" +:+ "=")),
      ?(Hsame ("password" +:+ "=")), ?(Hsame ("authorization" +:+ "="))
      by (cbv; lia);
    rewrite ?E1, ?E2, ?E3, ?E4; reflexivity.
Qed.

Lemma replace_copy (p t : string) (c : ascii) :
  replace_from (Copy (String.length (String c p))) (String c p +:+ t)
  = String c p +:+ MASKED +:+ replace_from Skip t.
Proof.
  revert c. induction p as [|a p IH]; intros c; [reflexivity|].
  change (String c (String a p) +:+ t) with (String c (String a p +:+ t)).
  change (String.length (String c (String a p)))
    with (S (String.length (String a p))).
  change (replace_from (Copy (S (String.length (String a p))))
            (String c (String a p +:+ t)))
    with (String c (replace_from (Copy (String.length (String a p)))
                      (String a p +:+ t))).
  by rewrite IH.
Qed.

(** The scan at a delimiter that a [word=] follows. *)
Lemma replace_match (c : ascii) (p t : string) (n : nat) :
  is_delimiter c = true →
  key_length (p +:+ t) = Some n →
  String.length p = n →
  (∃ a p', p = String a p') →
  replace_from Scan (String c (p +:+ t))
  = String c (p +:+ MASKED +:+ replace_from Scan (from_amp t)).
Proof.
  intros Hc Hk Hlen (a & p' & ->).
  change (replace_from Scan (String c (String a p' +:+ t)))
    with (if is_delimiter c
          then match key_length (String a p' +:+ t) with
               | Some n => String c (replace_from (Copy n) (String a p' +:+ t))
               | None => String c (replace_from Scan (String a p' +:+ t))
               end
          else String c (replace_from Scan (String a p' +:+ t))).
  rewrite Hc, Hk, <- Hlen, replace_copy, replace_skip. reflexivity.
Qed.

Lemma replace_masks (n : nat) :
  ∀ s, (String.length s ≤ n)%nat →
       parameters_masked (replace_from Scan s) = true.
Proof.
  induction n as [|n IH]; intros [|c rest] Hn; try reflexivity;
    [simpl in Hn; lia|].
  simpl in Hn.
  destruct (is_delimiter c) eqn:Hc.
  - destruct (key_length rest) as [m|] eqn:Hk.
    + destruct (key_length_split _ _ Hk) as (p & t & -> & Hlen & Hp & Hne & Hsame).
      rewrite (replace_match c p t m) by done.
      set (y := replace_from Scan (from_amp t)).
      assert (parameters_masked y = true) as Hy.
      { apply IH. pose proof (from_amp_length t).
        rewrite append_length in Hn. lia. }
      assert (y = EmptyString ∨ ∃ r, y = String "&" r) as Hhead.
      { unfold y. pose proof (replace_scan_head (from_amp t)) as Hh.
        destruct (from_amp_head t) as [E|[r E]]; rewrite E in *.
        - by left.
        - right. exact Hh. }
      change (parameters_masked (String c (p +:+ MASKED +:+ y)))
        with ((if is_delimiter c
               then match key_length (p +:+ MASKED +:+ y) with
                    | Some n => holds_mask (drop n (p +:+ MASKED +:+ y))
                    | None => true
                    end
               else true)
              && parameters_masked (p +:+ MASKED +:+ y)).
      rewrite Hc, Hsame, <- Hlen, drop_append.
      rewrite (parameters_masked_plain p) by done.
      rewrite (parameters_masked_plain MASKED) by reflexivity.
      rewrite Hy, andb_true_r.
      unfold holds_mask. rewrite strip_append.
      destruct Hhead as [->|[r ->]]; reflexivity.
    + simpl. rewrite Hc, Hk. simpl.
      rewrite Hc, key_length_replace, Hk. simpl. apply IH. lia.
  - rewrite replace_scan_cons by done. simpl. rewrite Hc. simpl.
    apply IH. lia.
Qed.

Lemma replace_fixed (n : nat) :
  ∀ s, (String.length s ≤ n)%nat →
       parameters_masked s = true → replace_from Scan s = s.
Proof.
  induction n as [|n IH]; intros [|c rest] Hn Hs; try reflexivity;
    [simpl in Hn; lia|].
  simpl in Hn.
  change (parameters_masked (String c rest))
    with ((if is_delimiter c
           then match key_length rest with
                | Some n => holds_mask (drop n rest)
                | None => true
                end
           else true)
          && parameters_masked rest) in Hs.
  apply andb_true_iff in Hs as [Hhere Hrest].
  destruct (is_delimiter c) eqn:Hc.
  - destruct (key_length rest) as [m|] eqn:Hk.
    + destruct (key_length_split _ _ Hk) as (p & t & -> & Hlen & Hp & Hne & Hsame).
      rewrite (replace_match c p t m) by done.
      rewrite <- Hlen, drop_append in Hhere.
      destruct (holds_mask_inv _ Hhere) as (r & -> & Hr).
      rewrite (from_amp_plain MASKED) by reflexivity.
      assert (from_amp r = r) as ->.
      { destruct Hr as [->|[r' ->]]; reflexivity. }
      rewrite IH; [reflexivity| |].
      * rewrite !append_length in Hn. lia.
      * apply parameters_masked_suffix in Hrest.
        by apply parameters_masked_suffix in Hrest.
    + simpl. rewrite Hc, Hk. f_equal. apply IH; [lia | done].
  - rewrite replace_scan_cons by done. f_equal. apply IH; [lia | done].
Qed.

(** X20. In the string that the replacement returns, after every [?] or [&]
    followed by token, secret, password or authorization (in any case) and
    [=], the value up to the next [&] is the mask. *)
Theorem mask_url_masks (s : string) :
  parameters_masked (mask_url s) = true.
Proof. exact (replace_masks (String.length s) s (le_n _)). Qed.

(** X21. The replacement leaves a string as it is exactly when its
    parameters of those names already hold the mask; a string with no such
    parameter is among them. *)
Theorem mask_url_fixed (s : string) :
  mask_url s = s ↔ parameters_masked s = true.
Proof.
  split.
  - intros H. rewrite <- H.
    exact (replace_masks (String.length s) s (le_n _)).
  - exact (replace_fixed (String.length s) s (le_n _)).
Qed.

Lemma mask_url_again (s : string) : mask_url (mask_url s) = mask_url s.
Proof.
  apply (replace_fixed (String.length (mask_url s)) _ (le_n _)).
  exact (replace_masks (String.length s) s (le_n _)).
Qed.

End MaskingStrings.

(** ** Masking what is logged *)

Section MaskingFacts.

Import Debug.

Variable toLowerCase : string → string.
Variable sensitiveKeys : list string.

Abbreviation mask := (maskSensitiveData toLowerCase sensitiveKeys).
Abbreviation sensitive := (is_sensitive toLowerCase sensitiveKeys).

(** Induction on values, with the entries of arrays and objects. *)
Lemma JsVal_nested_ind (P : JsVal → Prop) :
  P JUndefined → P JNull → (∀ b, P (JBool b)) → (∀ n, P (JNum n)) →
  (∀ s, P (JStr s)) →
  (∀ items, Forall P items → P (JArr items)) →
  (∀ props, Forall (fun p => P p.2) props → P (JObj props)) →
  ∀ v, P v.
Proof.
  intros Hu Hn Hb Hz Hs Ha Ho.
  fix IH 1. intros [| |b|n|s|items|props].
  - exact Hu.
  - exact Hn.
  - apply Hb.
  - apply Hz.
  - apply Hs.
  - apply Ha. induction items as [|x items IHitems]; constructor.
    + apply IH.
    + exact IHitems.
  - apply Ho. induction props as [|[k x] props IHprops]; constructor.
    + apply IH.
    + exact IHprops.
Qed.

Lemma mask_object (props : list (string * JsVal)) :
  mask (JObj props) = JObj (mask_props toLowerCase sensitiveKeys props).
Proof.
  simpl. f_equal. induction props as [|[k x] props IH]; [reflexivity|].
  simpl. rewrite IH. destruct (String.eqb k "__proto__"); [reflexivity|].
  unfold mask_value. destruct (sensitive k); [reflexivity|]. by destruct x.
Qed.

Lemma mask_array (items : list JsVal) :
  mask (JArr items) = JArr (mask_items toLowerCase sensitiveKeys 0 items).
Proof.
  simpl. f_equal. generalize 0%nat.
  induction items as [|x items IH]; intros i; [reflexivity|].
  simpl. rewrite IH. unfold mask_value.
  destruct (sensitive (index_key i)); [reflexivity|]. by destruct x.
Qed.

Lemma mask_is_object (v : JsVal) : is_object (mask v) = is_object v.
Proof. by destruct v. Qed.

Lemma all_masked_primitive (v : JsVal) :
  is_object v = false → all_masked toLowerCase sensitiveKeys v = true.
Proof. by destruct v. Qed.

Lemma all_masked_value (k : string) (v : JsVal) :
  (is_object v = true → all_masked toLowerCase sensitiveKeys (mask v) = true) →
  (if sensitive k
   then match mask_value toLowerCase sensitiveKeys k v with
        | JStr s => String.eqb s MASKED
        | _ => false
        end
   else all_masked toLowerCase sensitiveKeys
          (mask_value toLowerCase sensitiveKeys k v)) = true.
Proof.
  intros IH. unfold mask_value. destruct (sensitive k); [reflexivity|].
  destruct (is_object v) eqn:E; [by apply IH | by apply all_masked_primitive].
Qed.

(** X22. In what [maskSensitiveData] returns, every property whose key
    contains one of the sensitive keys holds the mask, at every depth of
    objects and arrays: no value under such a key reaches the log. *)
Theorem maskSensitiveData_masks (data : JsVal) :
  all_masked toLowerCase sensitiveKeys (mask data) = true.
Proof.
  induction data as [| | | | |items IH|props IH] using JsVal_nested_ind;
    try reflexivity.
  - rewrite mask_array. simpl. generalize 0%nat.
    induction IH as [|x items Hx _ IHitems]; intros i; [reflexivity|].
    simpl. rewrite IHitems, andb_true_r. apply all_masked_value. auto.
  - rewrite mask_object. simpl.
    induction IH as [|[k x] props Hx _ IHprops]; [reflexivity|].
    simpl. destruct (String.eqb k "__proto__"); [exact IHprops|].
    rewrite IHprops, andb_true_r. apply all_masked_value. auto.
Qed.

Lemma mask_value_again (k : string) (v : JsVal) :
  (is_object v = true → mask (mask v) = mask v) →
  mask_value toLowerCase sensitiveKeys k
    (mask_value toLowerCase sensitiveKeys k v)
  = mask_value toLowerCase sensitiveKeys k v.
Proof.
  intros IH. unfold mask_value. destruct (sensitive k); [reflexivity|].
  destruct (is_object v) eqn:E.
  - rewrite mask_is_object, E. by apply IH.
  - by rewrite E.
Qed.

(** X23. Masking is idempotent: masking what was already masked, whether a
    string, an object, an array or anything else, changes nothing. *)
Theorem maskSensitiveData_idempotent (data : JsVal) :
  mask (mask data) = mask data.
Proof.
  induction data as [| | | |s|items IH|props IH] using JsVal_nested_ind;
    try reflexivity.
  - simpl. f_equal. apply mask_url_again.
  - rewrite !mask_array. f_equal. generalize 0%nat.
    induction IH as [|x items Hx _ IHitems]; intros i; [reflexivity|].
    simpl. rewrite IHitems. f_equal. apply mask_value_again. auto.
  - rewrite !mask_object. f_equal.
    induction IH as [|[k x] props Hx _ IHprops]; [reflexivity|].
    simpl. destruct (String.eqb k "__proto__") eqn:E; [exact IHprops|].
    simpl. rewrite E, IHprops. f_equal. f_equal. apply mask_value_again. auto.
Qed.

Lemma mask_props_lookup (props : list (string * JsVal)) (k : string) :
  k ≠ "__proto__" →
  own_property (mask_props toLowerCase sensitiveKeys props) k
  = if Commands.has_own props k
    then mask_value toLowerCase sensitiveKeys k (own_property props k)
    else JUndefined.
Proof.
  intros Hk. induction props as [|[k0 x] props IH]; [reflexivity|].
  simpl. destruct (String.eqb k0 k) eqn:E.
  - apply String.eqb_eq in E. subst k0.
    apply String.eqb_neq in Hk. rewrite Hk. simpl.
    by rewrite String.eqb_refl.
  - simpl. destruct (String.eqb k0 "__proto__"); [exact IH|].
    simpl. by rewrite E.
Qed.

Lemma mask_props_own (props : list (string * JsVal)) (k : string) :
  Commands.has_own (mask_props toLowerCase sensitiveKeys props) k
  = negb (String.eqb k "__proto__") && Commands.has_own props k.
Proof.
  unfold Commands.has_own.
  induction props as [|[k0 x] props IH]; [by rewrite andb_false_r|].
  simpl. destruct (String.eqb k0 "__proto__") eqn:E.
  - rewrite IH. apply String.eqb_eq in E. subst k0.
    rewrite (String.eqb_sym "__proto__" k).
    by destruct (String.eqb k "__proto__").
  - simpl. rewrite IH.
    destruct (String.eqb k0 k) eqn:E'; [|reflexivity].
    apply String.eqb_eq in E'. subst k0. by rewrite E.
Qed.

Lemma own_property_absent (props : list (string * JsVal)) (k : string) :
  Commands.has_own props k = false → own_property props k = JUndefined.
Proof.
  unfold Commands.has_own.
  induction props as [|[k0 x] props IH]; [reflexivity|].
  simpl. intros E. apply orb_false_iff in E as [E1 E2]. rewrite E1. auto.
Qed.

(** X24. Masking an object gives an object with the same own properties
    except [__proto__], which it never has. Each of them holds the mask when
    its key is sensitive, the masked value when it is an object or an array,
    and otherwise exactly what it held: a string under a key that is not
    sensitive is kept as it is, whatever it contains, since only a string
    passed as the data itself is rewritten. Masking an array keeps its
    length. *)
Theorem maskSensitiveData_keeps_shape (props : list (string * JsVal))
    (items : list JsVal) (k : string) :
  k ≠ "__proto__" →
  (∃ masked,
     mask (JObj props) = JObj masked
     ∧ Commands.has_own masked "__proto__" = false
     ∧ Commands.has_own masked k = Commands.has_own props k
     ∧ (Commands.has_own props k = true →
        own_property masked k
        = mask_value toLowerCase sensitiveKeys k (own_property props k))
     ∧ (sensitive k = true → Commands.has_own props k = true →
        own_property masked k = JStr MASKED)
     ∧ (sensitive k = false → is_object (own_property props k) = false →
        own_property masked k = own_property props k))
  ∧ read (mask (JArr items)) "length" = read (JArr items) "length".
Proof.
  intros Hk. split.
  - exists (mask_props toLowerCase sensitiveKeys props).
    pose proof (mask_props_lookup props k Hk) as Hread.
    split; [apply mask_object|]. split; [by rewrite mask_props_own|].
    split; [|split; [|split]].
    + rewrite mask_props_own. apply String.eqb_neq in Hk. by rewrite Hk.
    + intros Hown. by rewrite Hread, Hown.
    + intros Hs Hown. rewrite Hread, Hown. unfold mask_value. by rewrite Hs.
    + intros Hs Ho. rewrite Hread. unfold mask_value. rewrite Hs, Ho.
      destruct (Commands.has_own props k) eqn:E; [reflexivity|].
      by rewrite own_property_absent.
  - rewrite mask_array. unfold read. simpl. do 2 f_equal. generalize 0%nat.
    induction items as [|x items IH]; intros i; [reflexivity|].
    simpl. by rewrite IH.
Qed.

End MaskingFacts.

Lemma maskSensitiveData_keeps_shape_witness :
  "url" ≠ "__proto__"
  ∧ ∃ masked,
      Debug.maskSensitiveData Debug.ascii_lower Debug.default_sensitiveKeys
        logged_request = JObj masked
      ∧ own_property masked "url"
        = JStr "https://api.intra.42.fr/oauth/token?token=abc"
      ∧ own_property masked "headers"
        = JObj [("Authorization", JStr Debug.MASKED)].
Proof.
  split; [discriminate|].
  destruct (maskSensitiveData_keeps_shape Debug.ascii_lower
              Debug.default_sensitiveKeys
              [("url", JStr "https://api.intra.42.fr/oauth/token?token=abc");
               ("body", JObj [("grant_type", JStr "authorization_code");
                              ("client_secret", JStr "s3cr3t");
                              ("code", JStr "abc")]);
               ("headers", JObj [("Authorization", JStr "Bearer xyz")])]
              [] "url" ltac:(discriminate))
    as [(masked & Hmasked & _ & _ & _ & _ & Hkept) _].
  exists masked. split; [exact Hmasked|].
  split; [exact (Hkept eq_refl eq_refl)|].
  injection Hmasked as <-. reflexivity.
Defined.
